(** * Rural Explorer (app.js): normalisation and aggregation pipeline

    A shallow embedding of the data pipeline of [src/js/app.js]
    (v2.3; [extractURL], the row normaliser and retention filter of
    [loadExcelData], the statistics and ranking of [renderAnalysis], the
    per-record price-per-acre of [renderListings] and [renderChart]),
    followed by the properties the specification states about it.

    Each part then goes on to the rest of the script: the multi-path fetch,
    rendering, the map initialisation and the asynchronous [loadExcelData]
    with its watchdog, as a transition system over the events of the page;
    and the dependency checker of v2.4 ([src/unnamed/part_000]).

    JavaScript values are modelled as the language defines them:
    - a Number is an IEEE-754 binary64 value, here Rocq's primitive [float]
      (one NaN, signed zeros, infinities, round-to-nearest-even);
    - a String is a sequence of UTF-16 code units, here [list N];
    - a row of [XLSX.utils.sheet_to_json] is an object used as a map from
      header to cell, here a [gmap] whose missing keys read as [undefined]. *)

From Stdlib Require Import ZArith Lia List Bool String Ascii Floats.
From Stdlib Require Import Permutation Sorted DecimalString.
From stdpp Require Import base gmap.
Import ListNotations.
Open Scope Z_scope.

(* ===================================================================== *)
(** * Part I. The ECMAScript built-ins the pipeline calls                 *)
(* ===================================================================== *)

Module JS.

(** ** Strings *)

Abbreviation JSString := (list N) (only parsing).

(** The code units of an ASCII literal. *)
Definition str (s : string) : list N :=
  List.map N_of_ascii (list_ascii_of_string s).

(** The double quote, U+0022. *)
Definition dquote : N := 34%N.

(** WhiteSpace and LineTerminator code points: what [\s] matches in a
    RegExp, and what [parseFloat], [parseInt] and [trim] strip. *)
Definition isWhiteSpace (c : N) : bool :=
  match c with
  | 9 | 10 | 11 | 12 | 13 | 32 | 160 | 5760
  | 8232 | 8233 | 8239 | 8287 | 12288 | 65279 => true
  | _ => (8192 <=? c) && (c <=? 8202)
  end%N.

Definition isDigit (c : N) : bool := ((48 <=? c) && (c <=? 57))%N.

Definition digitValue (c : N) : Z := Z.of_N (c - 48).

(** Canonicalize of a RegExp with the [i] flag and without [u]: upper-casing,
    except that a code unit outside ASCII never folds to an ASCII one.  Against
    an ASCII pattern character only the letters a-z fold. *)
Definition canonicalize (c : N) : N :=
  if ((97 <=? c) && (c <=? 122))%N then (c - 32)%N else c.

Fixpoint dropWhile {A} (p : A -> bool) (l : list A) : list A :=
  match l with
  | x :: t => if p x then dropWhile p t else l
  | [] => []
  end.

Fixpoint takeWhile {A} (p : A -> bool) (l : list A) : list A :=
  match l with
  | x :: t => if p x then x :: takeWhile p t else []
  | [] => []
  end.

(** [String.prototype.startsWith]. *)
Fixpoint startsWith (s prefix : list N) : bool :=
  match prefix, s with
  | [], _ => true
  | p :: ps, c :: cs => (p =? c)%N && startsWith cs ps
  | _ :: _, [] => false
  end.

(** [String.prototype.trim]. *)
Definition trim (s : list N) : list N :=
  rev (dropWhile isWhiteSpace (rev (dropWhile isWhiteSpace s))).

(** ** Numbers *)

Abbreviation Number := float (only parsing).

(** The Number nearest to an integer (ties to even), as the conversion of a
    mathematical value to a Number is defined. *)
Definition ofZ (z : Z) : float :=
  SF2Prim (binary_normalize prec emax z 0 false).

(** The global [isNaN] on a Number. *)
Definition isNaN (x : float) : bool := is_nan x.

(** ToBoolean of a Number: NaN, +0 and -0 are falsy. *)
Definition truthyNumber (x : float) : bool := negb (is_nan x || is_zero x).

(** [x || 0] for a Number [x]. *)
Definition orZero (x : float) : float :=
  if truthyNumber x then x else zero.

(** [Math.round]: the nearest integer, a tie going towards +Infinity; a value
    in [-0.5, 0) gives -0, an integral or non-finite value is returned as
    it is.  A finite non-integral binary64 value lies below 2^53 in
    magnitude, so the floor of [x + 1/2] is computed exactly on the
    mantissa. *)
Definition Math_round (x : float) : float :=
  match Prim2SF x with
  | S754_finite s m e =>
      if 0 <=? e then x
      else
        let half := Z.shiftl 1 (- e - 1) in
        let n := Z.shiftr (cond_Zopp s (Zpos m) + half) (- e) in
        if n =? 0 then (if s then neg_zero else zero) else ofZ n
  | _ => x
  end.

(** The Number nearest to [d * 10^e10] ([d >= 0]), negated when [neg]:
    the value of a decimal literal.  For a negative exponent the quotient is
    taken with 64 extra bits and a sticky bit, which rounds as the exact
    quotient does. *)
Definition decimalToSF (neg : bool) (d : Z) (e10 : Z) : spec_float :=
  if d =? 0 then S754_zero neg
  else if 0 <=? e10 then
    binary_normalize prec emax (cond_Zopp neg (d * 10 ^ e10)) 0 false
  else
    let den := 10 ^ (- e10) in
    let k := Z.max 0 (Z.log2 den + 66 - Z.log2 d) in
    let num := Z.shiftl d k in
    let q := num / den in
    let sticky := if num mod den =? 0 then 0 else 1 in
    binary_normalize prec emax (cond_Zopp neg (2 * q + sticky)) (- (k + 1)) false.

Definition decimalToNumber (neg : bool) (d : Z) (e10 : Z) : float :=
  SF2Prim (decimalToSF neg d e10).

(** The mathematical value of a run of decimal digits. *)
Definition digitsValue (ds : list N) : Z :=
  fold_left (fun acc c => 10 * acc + digitValue c) ds 0.

(** An optional sign: whether it is a minus, and the rest. *)
Definition readSign (s : list N) : bool * list N :=
  match s with
  | c :: t =>
      if (c =? 45)%N then (true, t)
      else if (c =? 43)%N then (false, t)
      else (false, s)
  | [] => (false, [])
  end.

(** ExponentPart of a StrDecimalLiteral: [e] or [E], an optional sign and at
    least one digit; absent (exponent 0) when the text does not continue so. *)
Definition readExponent (s : list N) : Z :=
  match s with
  | c :: t =>
      if ((c =? 101) || (c =? 69))%N then
        let '(neg, u) := readSign t in
        match takeWhile isDigit u with
        | [] => 0
        | ds => cond_Zopp neg (digitsValue ds)
        end
      else 0
  | [] => 0
  end.

(** [parseFloat] on a String: leading white space is skipped and the longest
    prefix that is a StrDecimalLiteral is converted; NaN when there is none. *)
Definition parseFloatString (s : list N) : float :=
  let '(neg, t) := readSign (dropWhile isWhiteSpace s) in
  if startsWith t (str "Infinity") then (if neg then neg_infinity else infinity)
  else
    let ip := takeWhile isDigit t in
    let t1 := dropWhile isDigit t in
    let integerOnly :=
      match ip with
      | [] => nan
      | _ => decimalToNumber neg (digitsValue ip) (readExponent t1)
      end in
    match t1 with
    | c :: t2 =>
        if (c =? 46)%N then
          let fp := takeWhile isDigit t2 in
          match ip ++ fp with
          | [] => nan
          | ds =>
              decimalToNumber neg (digitsValue ds)
                (readExponent (dropWhile isDigit t2) - Z.of_nat (length fp))
          end
        else integerOnly
    | [] => integerOnly
    end.

(** [parseInt(s, 10)] on a String: leading white space, an optional sign, then
    the longest run of decimal digits; NaN when the run is empty. *)
Definition parseIntString (s : list N) : float :=
  let '(neg, t) := readSign (dropWhile isWhiteSpace s) in
  match takeWhile isDigit t with
  | [] => nan
  | ds => decimalToNumber neg (digitsValue ds) 0
  end.

(** *** Number::toString (radix 10) *)

(** Whether [10^k <= m * 2^e], on integers. *)
Definition pow10_le (k m e : Z) : bool :=
  10 ^ Z.max k 0 * 2 ^ Z.max (- e) 0 <=? m * 2 ^ Z.max e 0 * 10 ^ Z.max (- k) 0.

(** The least [n >= n0] with [m * 2^e < 10^n]. *)
Fixpoint decimalExponent (fuel : nat) (n m e : Z) : Z :=
  match fuel with
  | O => n
  | S f => if pow10_le n m e then decimalExponent f (n + 1) m e else n
  end.

(** The floor of [m * 2^e / 10^p]. *)
Definition scaledFloor (m e p : Z) : Z :=
  (m * 2 ^ Z.max e 0 * 10 ^ Z.max (- p) 0) / (2 ^ Z.max (- e) 0 * 10 ^ Z.max p 0).

(** [m * 2^e] compared with the midpoint of [s * 10^p] and [(s+1) * 10^p]. *)
Definition midpointCompare (m e s p : Z) : comparison :=
  (2 * m * 2 ^ Z.max e 0 * 10 ^ Z.max (- p) 0
     ?= (2 * s + 1) * 2 ^ Z.max (- e) 0 * 10 ^ Z.max p 0).

Definition isFinite (x : spec_float) (m : positive) (e : Z) : bool :=
  match x with
  | S754_finite false m' e' => (m =? m')%positive && (e =? e')
  | _ => false
  end.

(** The integers [s], [k], [n] of Number::toString for the positive value
    [m * 2^e]: [k] is the least number of digits such that a [k]-digit [s]
    with [s * 10^(n-k)] reading back as the same Number exists, and among
    those the [s] nearest to the value is taken.  17 digits always do. *)
Fixpoint shortestDigits (fuel : nat) (k n : Z) (m : positive) (e : Z) : Z * Z * Z :=
  let p := n - k in
  let lo := scaledFloor (Zpos m) e p in
  let hi := lo + 1 in
  let okLo := isFinite (decimalToSF false lo p) m e in
  let okHi := isFinite (decimalToSF false hi p) m e in
  let found s := if s =? 10 ^ k then (10 ^ (k - 1), k, n + 1) else (s, k, n) in
  match okLo, okHi with
  | true, true =>
      match midpointCompare (Zpos m) e lo p with
      | Lt => found lo
      | Gt => found hi
      | Eq => found (if Z.even lo then lo else hi)
      end
  | true, false => found lo
  | false, true => found hi
  | false, false =>
      match fuel with
      | O => (lo, k, n)
      | S f => shortestDigits f (k + 1) n m e
      end
  end.

(** The decimal digits of a natural number. *)
Definition digitsOf (z : Z) : list N :=
  str (NilZero.string_of_uint (N.to_uint (Z.to_N z))).

Definition zeros (n : Z) : list N := repeat 48%N (Z.to_nat n).

Definition formatDecimal (s k n : Z) : list N :=
  let ds := digitsOf s in
  if (k <=? n) && (n <=? 21) then ds ++ zeros (n - k)
  else if (0 <? n) && (n <=? 21) then
    firstn (Z.to_nat n) ds ++ str "." ++ skipn (Z.to_nat n) ds
  else if (-6 <? n) && (n <=? 0) then str "0." ++ zeros (- n) ++ ds
  else
    let ex := n - 1 in
    let exps := str (if ex <? 0 then "-" else "+") ++ digitsOf (Z.abs ex) in
    if k =? 1 then ds ++ str "e" ++ exps
    else firstn 1 ds ++ str "." ++ skipn 1 ds ++ str "e" ++ exps.

Definition NumberToString (x : float) : list N :=
  match Prim2SF x with
  | S754_nan => str "NaN"
  | S754_zero _ => str "0"
  | S754_infinity s => (if s then str "-" else []) ++ str "Infinity"
  | S754_finite s m e =>
      let b := Z.log2 (Zpos m) + e in
      let n := decimalExponent 6 (b * 30103 / 100000 - 2) (Zpos m) e in
      let '(d, k, n') := shortestDigits 16 1 n m e in
      (if s then str "-" else []) ++ formatDecimal d k n'
  end.

(** [Math.max] of two Numbers: NaN if either is, and +0 above -0. *)
Definition Math_max (x y : float) : float :=
  if is_nan x || is_nan y then nan
  else if (x <? y)%float then y
  else if (y <? x)%float then x
  else if get_sign x then y else x.

(** ** Values: what a cell of a parsed sheet holds *)

Inductive Value :=
  | Undefined
  | VBoolean (b : bool)
  | VString (s : list N)
  | VNumber (x : float).

Definition ToString (v : Value) : list N :=
  match v with
  | Undefined => str "undefined"
  | VBoolean b => str (if b then "true" else "false")
  | VString s => s
  | VNumber x => NumberToString x
  end.

Definition ToBoolean (v : Value) : bool :=
  match v with
  | Undefined => false
  | VBoolean b => b
  | VString [] => false
  | VString (_ :: _) => true
  | VNumber x => truthyNumber x
  end.

(** [v || d] with a string literal [d]. *)
Definition orString (v : Value) (d : list N) : Value :=
  if ToBoolean v then v else VString d.

(** [parseFloat(v)] and [parseInt(v, 10)]: the argument is first converted
    with ToString. *)
Definition parseFloat (v : Value) : float := parseFloatString (ToString v).
Definition parseInt (v : Value) : float := parseIntString (ToString v).

(** ** Arrays *)

Fixpoint mapFrom {A B} (f : A -> nat -> B) (i : nat) (l : list A) : list B :=
  match l with
  | [] => []
  | x :: t => f x i :: mapFrom f (S i) t
  end.

(** [Array.prototype.map] with a callback of the element and its index. *)
Definition Array_map {A B} (f : A -> nat -> B) (l : list A) : list B :=
  mapFrom f 0 l.

(** [Array.prototype.reduce] with an initial value. *)
Definition Array_reduce {A B} (f : B -> A -> B) (init : B) (l : list A) : B :=
  fold_left f l init.

(** [Array.prototype.slice(0, n)]. *)
Definition Array_slice0 {A} (n : nat) (l : list A) : list A := firstn n l.

(** The [length] of an array, as a Number. *)
Definition Array_length {A} (l : list A) : float := ofZ (Z.of_nat (length l)).

(** [Array.prototype.sort] with a comparator.  The sort is stable, and the
    comparator's result [v] only matters through its sign, NaN counting as
    +0: [x] goes after [y] exactly when [v > 0].  For a comparator that is
    a consistent ordering the result is determined by these two facts; it is
    computed here by stable insertion. *)
Fixpoint insertSorted {A} (cmp : A -> A -> float) (x : A) (l : list A) : list A :=
  match l with
  | [] => [x]
  | y :: t => if (0 <? cmp x y)%float then y :: insertSorted cmp x t else x :: l
  end.

Definition Array_sort {A} (cmp : A -> A -> float) (l : list A) : list A :=
  fold_right (insertSorted cmp) [] l.

End JS.

Import JS.

(* ===================================================================== *)
(** * Part II. The pipeline of app.js                                     *)
(* ===================================================================== *)

(** ** 3. URL extraction from HYPERLINK formulas *)

(** A literal of the pattern, matched under the [i] flag: the rest of the
    text after it. *)
Fixpoint matchLiteral (pat s : list N) : option (list N) :=
  match pat, s with
  | [], _ => Some s
  | p :: ps, c :: cs =>
      if (canonicalize c =? canonicalize p)%N then matchLiteral ps cs else None
  | _ :: _, [] => None
  end.

Definition notQuote (c : N) : bool := negb (c =? dquote)%N.

(** The RegExp of [extractURL] matched at the start of [s]: the text of
    group 1.  Writing Q for the double quote, the pattern is
    [/=HYPERLINK\(\s*Q([^Q]+)Q/i]: the literal [=HYPERLINK(], then [\s*], the
    opening quote, group 1 [[^Q]+] and the closing quote.  Both repetitions
    are greedy and what follows each of them is a quote, which neither [\s]
    nor [[^Q]] matches: giving back a character never helps, so the longest
    run is the only candidate. *)
Definition hyperlinkAt (s : list N) : option (list N) :=
  match matchLiteral (str "=HYPERLINK(") s with
  | Some r =>
      match dropWhile isWhiteSpace r with
      | c :: r' =>
          if (c =? dquote)%N then
            match takeWhile notQuote r', dropWhile notQuote r' with
            | (_ :: _) as u, d :: _ => if (d =? dquote)%N then Some u else None
            | _, _ => None
            end
          else None
      | [] => None
      end
  | None => None
  end.

(** [cellValue.match(re)] for that RegExp (no [g] flag): the match at the
    leftmost position that has one; its group 1. *)
Fixpoint hyperlinkMatch (s : list N) : option (list N) :=
  match hyperlinkAt s with
  | Some u => Some u
  | None =>
      match s with
      | [] => None
      | _ :: t => hyperlinkMatch t
      end
  end.

Definition extractURL (cellValue : Value) : list N :=
  match cellValue with
  | VString [] => str "#"
  | VString s =>
      match hyperlinkMatch s with
      | Some ((_ :: _) as u) => u
      | _ =>
          if startsWith s (str "http://") || startsWith s (str "https://")
          then s else str "#"
      end
  | _ => str "#"
  end.

(** ** 5. Excel loading and parsing: normalisation and retention *)

(** A row of [sheet_to_json]: header to cell. *)
Abbreviation RawRow := (gmap (list N) Value).

(** [row[header]]: [undefined] when the row has no such property. *)
Definition cell (row : RawRow) (header : string) : Value :=
  match row !! str header with
  | Some v => v
  | None => Undefined
  end.

Record Property := {
  id : nat;
  address : list N;
  price : float;
  acres : float;
  llmScore : float;
  lat : float;
  lng : float;
  driveTime : float;
  url : list N;
  type : list N
}.

(** The callback of [rawJson.map]. *)
Definition normalize (row : RawRow) (index : nat) : Property :=
  let price := orZero (parseFloat (cell row "Price")) in
  let acres := orZero (parseFloat (cell row "Acres")) in
  let lat := parseFloat (cell row "Latitude") in
  let lng := parseFloat (cell row "Longitude") in
  let driveTime := orZero (parseInt (cell row "Drive Dist (mi)")) in
  let llmScore := orZero (parseInt (cell row "LLM Score")) in
  let address := trim (ToString (orString (cell row "Address") (str "Unnamed Property"))) in
  let city := trim (ToString (orString (cell row "City") [])) in
  let state := trim (ToString (orString (cell row "State") [])) in
  let type := trim (ToString (orString (cell row "Type") (str "Land"))) in
  let url := extractURL (cell row "Property URL Link") in
  let fullAddress :=
    if ToBoolean (VString city) && ToBoolean (VString state)
    then address ++ str ", " ++ city ++ str ", " ++ state
    else address in
  {| id := index; address := fullAddress; price := price; acres := acres;
     llmScore := llmScore; lat := lat; lng := lng; driveTime := driveTime;
     url := url; type := type |}.

(** The predicate of [.filter]. *)
Definition valid (p : Property) : bool :=
  (0 <? price p)%float && negb (isNaN (lat p)) && negb (isNaN (lng p)).

(** [loadExcelData] from the parsed rows on: the value assigned to
    [currentData].  Fetching and parsing the workbook, the status display and
    the console messages are left out. *)
Definition loadExcelData (rawJson : list RawRow) : list Property :=
  List.filter valid (Array_map normalize rawJson).

(** ** Text written to the page *)

(** A template literal is kept as its pieces: literal text (an interpolated
    Number or String is text by ToString) and [x.toLocaleString()], whose
    digit grouping is the host locale's and is left symbolic. *)
Inductive Piece :=
  | Lit (s : list N)
  | Localized (x : float).

(** ** 7. Listing cards *)

(** The constant [pricePerAcre] of a card of [renderListings]; the text used
    when there is no acreage is an em dash. *)
Definition pricePerAcre (p : Property) : Piece :=
  if (0 <? acres p)%float
  then Localized (Math_round (price p / acres p))
  else Lit [8212%N].

(** ** 9. Bubble chart *)

Module Bubble.
Record t := { x : float; y : float; r : float }.
End Bubble.

(** The [data] of the chart's dataset in [renderChart]. *)
Definition chartData (currentData : list Property) : list Bubble.t :=
  List.map (fun p =>
    {| Bubble.x := driveTime p;
       Bubble.y := if (0 <? acres p)%float
                   then Math_round (price p / acres p) else zero;
       Bubble.r := Math_max (ofZ 4) (llmScore p / ofZ 8) |}) currentData.

(** ** 8. Sidebar analysis *)

(** The elements [renderAnalysis] writes, by id.  A card of [topPicks] is kept
    as the record it shows and whether it carries the trophy badge. *)
Record Sidebar := {
  el_avgPrice : list Piece;
  el_avgAcres : list Piece;
  el_marketNarrative : list Piece;
  el_topPicks : list (Property * bool)
}.

(** How a call ends: normally, or by an exception thrown at some state of
    the page. *)
Inductive Completion (A : Type) :=
  | Normal (a : A)
  | Throw (a : A).
Arguments Normal {A} a.
Arguments Throw {A} a.

(** The locals [avgPrice], [avgPricePerAcre] and [sorted] of
    [renderAnalysis]. *)
Definition avgPrice (currentData : list Property) : float :=
  (Array_reduce (fun s p => s + price p) zero currentData
     / Array_length currentData)%float.

Definition avgPricePerAcre (currentData : list Property) : float :=
  (Array_reduce
     (fun s p => s + (if 0 <? acres p then price p / acres p else zero))
     zero currentData
     / Array_length currentData)%float.

Definition sorted (currentData : list Property) : list Property :=
  Array_sort (fun a b => (llmScore b - llmScore a)%float) currentData.

Definition narrative (topPick : Property) (avgPricePerAcre : float)
    (count : float) : list Piece :=
  [ Lit (str "Market signals prioritise " ++ [dquote] ++ address topPick
         ++ [dquote] ++ str " as the optimal balance of LLM score ("
         ++ NumberToString (llmScore topPick)
         ++ str ") vs drive distance ("
         ++ NumberToString (driveTime topPick)
         ++ str " mi). Average density across this snapshot is $");
    Localized (Math_round avgPricePerAcre);
    Lit (str "/acre over " ++ NumberToString count ++ str " active listings.") ].

(** The statements of [renderAnalysis] after its guard.  [sorted[0]] of an
    empty array is [undefined], and reading [topPick.address] then throws a
    TypeError, after the two averages have been written. *)
Definition renderAnalysisBody (currentData : list Property) (page : Sidebar)
    : Completion Sidebar :=
  let page1 :=
    {| el_avgPrice := [Lit (str "$"); Localized (Math_round (avgPrice currentData))];
       el_avgAcres := [Lit (str "$");
                       Localized (Math_round (avgPricePerAcre currentData));
                       Lit (str "/ac")];
       el_marketNarrative := el_marketNarrative page;
       el_topPicks := el_topPicks page |} in
  match sorted currentData with
  | [] => Throw page1
  | topPick :: _ =>
      Normal
        {| el_avgPrice := el_avgPrice page1;
           el_avgAcres := el_avgAcres page1;
           el_marketNarrative :=
             narrative topPick (avgPricePerAcre currentData)
               (Array_length currentData);
           el_topPicks :=
             Array_map (fun pick idx => (pick, (idx =? 0)%nat))
               (Array_slice0 3 (sorted currentData)) |}
  end.

Definition renderAnalysis (currentData : list Property) (page : Sidebar)
    : Completion Sidebar :=
  if (length currentData =? 0)%nat then Normal page
  else renderAnalysisBody currentData page.

(** ** 4. Multi-path fetch helper *)

(** A Response, as far as the application looks at it: [ok], [status], and
    what [arrayBuffer()], [XLSX.read] and [sheet_to_json] make of its body,
    the rows of the first sheet or the message of the error thrown on the
    way. *)
Module Response.
Record t := { ok : bool; status : Z; sheet : list RawRow + list N }.
End Response.

(** How [fetch(path)] settles: with a Response, or rejected with an error. *)
Inductive Settled :=
  | Resolves (res : Response.t)
  | Rejects (message : list N).

(** The network during one call: each path is requested at most once. *)
Abbreviation Network := (list N -> Settled).

(** The array [candidates], in the order it is tried. *)
Definition candidates (fileName : list N) : list (list N) :=
  [ str "data/list/" ++ fileName ++ str ".xlsx";
    str "data/" ++ fileName ++ str ".xlsx";
    fileName ++ str ".xlsx" ].

(** [Array.prototype.join]. *)
Fixpoint Array_join (sep : list N) (l : list (list N)) : list N :=
  match l with
  | [] => []
  | [x] => x
  | x :: t => x ++ sep ++ Array_join sep t
  end.

(** The [for] loop over the candidates: the paths requested, in order, and
    the first Response that is [ok] with its path.  A Response that is not
    [ok] and a rejected request both lead to the next candidate. *)
Fixpoint tryPaths (fetch : Network) (paths : list (list N))
    : list (list N) * option (Response.t * list N) :=
  match paths with
  | [] => ([], None)
  | path :: rest =>
      let next := tryPaths fetch rest in
      match fetch path with
      | Resolves res =>
          if Response.ok res then ([path], Some (res, path))
          else (path :: fst next, snd next)
      | Rejects _ => (path :: fst next, snd next)
      end
  end.

(** The message of the Error thrown when no candidate answers. *)
Definition notFound (fileName : list N) : list N :=
  str "Excel file " ++ [dquote] ++ fileName ++ str ".xlsx" ++ [dquote]
  ++ str " not found. Tried: " ++ Array_join (str ", ") (candidates fileName)
  ++ str ". "
  ++ str "Ensure the file is committed to your GitHub Pages repo at one of those paths.".

(** [fetchFromMultiplePaths]: the requests it makes, and the object it
    returns or the message of the Error it throws. *)
Definition fetchFromMultiplePaths (fetch : Network) (fileName : list N)
    : list (list N) * (Response.t * list N + list N) :=
  let '(requests, found) := tryPaths fetch (candidates fileName) in
  match found with
  | Some r => (requests, inl r)
  | None => (requests, inr (notFound fileName))
  end.

(** ** 1. Global state, the page and the libraries *)

(** Where the map looks, by the last call that moved it. *)
Inductive View :=
  | SetView (lat lng zoom : float)
  | FitBounds (points : list (float * float)) (pad : float)
  | FlyTo (lat lng zoom : float).

(** A circle marker of [renderListings]: its position, its fill colour and
    the values its popup interpolates, in the order of the template. *)
Record Marker := {
  m_latlng : float * float;
  m_fillColor : list N;
  m_popup : list Piece
}.

(** A card of the listing grid: the values its template interpolates, in the
    order of the template, and where its click handler flies the map to. *)
Record Card := {
  c_holes : list Piece;
  c_target : float * float
}.

(** What rendering works on: the globals [map], [markers] and
    [chartInstance] and the elements of the page it writes.  [markers] is
    kept as the layers of the feature group, [chartInstance] as the data of
    its dataset.  An element the script has not written yet is [None]: it is
    as the document has it. *)
Module Display.
Record t := {
  map : option View;
  markers : option (list Marker);
  chartInstance : option (list Bubble.t);
  listingGrid : option (list Card);
  listingCount : option (list N);
  sidebar : Sidebar
}.
Definition set_map v d :=
  {| map := v; markers := markers d; chartInstance := chartInstance d;
     listingGrid := listingGrid d; listingCount := listingCount d;
     sidebar := sidebar d |}.
Definition set_markers v d :=
  {| map := map d; markers := v; chartInstance := chartInstance d;
     listingGrid := listingGrid d; listingCount := listingCount d;
     sidebar := sidebar d |}.
Definition set_chartInstance v d :=
  {| map := map d; markers := markers d; chartInstance := v;
     listingGrid := listingGrid d; listingCount := listingCount d;
     sidebar := sidebar d |}.
Definition set_listingGrid v d :=
  {| map := map d; markers := markers d; chartInstance := chartInstance d;
     listingGrid := v; listingCount := listingCount d;
     sidebar := sidebar d |}.
Definition set_listingCount v d :=
  {| map := map d; markers := markers d; chartInstance := chartInstance d;
     listingGrid := listingGrid d; listingCount := v;
     sidebar := sidebar d |}.
Definition set_sidebar v d :=
  {| map := map d; markers := markers d; chartInstance := chartInstance d;
     listingGrid := listingGrid d; listingCount := listingCount d;
     sidebar := v |}.
End Display.

(** The calls into Leaflet and Chart.js that rendering makes, each with the
    message of the error it throws, if it throws; plain accessors
    ([getLayers], [getContext]) are taken to return.  [typeError] is the
    message the engine gives to reading a property of [undefined]. *)
Record Libraries := {
  clearLayers : option (list N);
  circleMarker : Property -> option (list N);
  chartDestroy : option (list N);
  newChart : option (list N);
  fitBounds : option (list N);
  typeError : list N
}.

(** How a call ends when the message of the exception matters. *)
Inductive Outcome (A : Type) :=
  | Returns (a : A)
  | Throws (a : A) (message : list N).
Arguments Returns {A} a.
Arguments Throws {A} a message.

Definition andThen {A} (o : Outcome A) (k : A -> Outcome A) : Outcome A :=
  match o with
  | Returns a => k a
  | Throws a message => Throws a message
  end.

(** ** 7. Listing cards and map markers *)

Definition card (p : Property) : Card :=
  {| c_holes :=
       [ Lit (NumberToString (llmScore p)); Lit (type p);
         Localized (price p); Lit (address p); Lit (address p);
         Lit (NumberToString (acres p)); Lit (NumberToString (driveTime p));
         pricePerAcre p; Lit (url p) ];
     c_target := (lat p, lng p) |}.

Definition markerColor (p : Property) : list N :=
  if (ofZ 90 <=? llmScore p)%float then str "#10b981" else str "#64748b".

Definition marker (p : Property) : Marker :=
  {| m_latlng := (lat p, lng p);
     m_fillColor := markerColor p;
     m_popup :=
       [ Localized (price p); Lit (address p);
         Lit (NumberToString (acres p)); Lit (NumberToString (llmScore p));
         Lit (url p) ] |}.

(** The [forEach] of [renderListings]: the card is appended before the
    marker is made, and a marker is made only when [markers] is set. *)
Fixpoint forEachListing (libs : Libraries) (l : list Property)
    (d : Display.t) : Outcome Display.t :=
  match l with
  | [] => Returns d
  | p :: rest =>
      let d1 :=
        Display.set_listingGrid
          (Some (default [] (Display.listingGrid d) ++ [card p])) d in
      match Display.markers d1 with
      | Some layers =>
          match circleMarker libs p with
          | Some message => Throws d1 message
          | None =>
              forEachListing libs rest
                (Display.set_markers (Some (layers ++ [marker p])) d1)
          end
      | None => forEachListing libs rest d1
      end
  end.

Definition renderListings (libs : Libraries) (currentData : list Property)
    (d : Display.t) : Outcome Display.t :=
  let d1 := Display.set_listingGrid (Some []) d in
  andThen
    (match Display.markers d1 with
     | Some _ =>
         match clearLayers libs with
         | Some message => Throws d1 message
         | None => Returns (Display.set_markers (Some []) d1)
         end
     | None => Returns d1
     end)
    (fun d2 =>
  andThen (forEachListing libs currentData d2) (fun d3 =>
  Returns
    (Display.set_listingCount
       (Some (NumberToString (Array_length currentData)
              ++ str " Strategic Assets")) d3))).

(** ** 9. Bubble chart: the chart and its tooltip *)

Definition renderChart (libs : Libraries) (currentData : list Property)
    (d : Display.t) : Outcome Display.t :=
  andThen
    (match Display.chartInstance d with
     | Some _ =>
         match chartDestroy libs with
         | Some message => Throws d message
         | None => Returns (Display.set_chartInstance None d)
         end
     | None => Returns d
     end)
    (fun d1 =>
  match newChart libs with
  | Some message => Throws d1 message
  | None => Returns (Display.set_chartInstance (Some (chartData currentData)) d1)
  end).

(** The tooltip's [label] callback: it reads [currentData] when the tooltip
    is shown. *)
Definition tooltipLabel (currentData : list Property) (dataIndex : nat)
    : list Piece :=
  match nth_error currentData dataIndex with
  | Some prop =>
      [ Lit (address prop ++ str " " ++ [8212%N] ++ str " $");
        Localized (price prop);
        Lit (str " | " ++ NumberToString (acres prop) ++ str " ac") ]
  | None => []
  end.

(** ** 6. Render orchestrator *)

Definition renderUI (libs : Libraries) (currentData : list Property)
    (d : Display.t) : Outcome Display.t :=
  andThen (renderListings libs currentData d) (fun d1 =>
  andThen (renderChart libs currentData d1) (fun d2 =>
  andThen
    (match renderAnalysis currentData (Display.sidebar d2) with
     | Normal page => Returns (Display.set_sidebar page d2)
     | Throw page => Throws (Display.set_sidebar page d2) (typeError libs)
     end)
    (fun d3 =>
  match Display.map d3, Display.markers d3 with
  | Some _, Some layers =>
      if (0 <? length layers)%nat then
        match fitBounds libs with
        | Some _ => Returns d3
        | None =>
            Returns
              (Display.set_map
                 (Some (FitBounds (List.map m_latlng layers)
                          (decimalToNumber false 15 (-2)))) d3)
        end
      else Returns d3
  | _, _ => Returns d3
  end))).

(** ** 1. Global state: loads, timers and the status display *)

(** The two callbacks the script hands to [setTimeout]. *)
Inductive Callback := Watchdog | RetryMap.

(** [innerText] or [innerHTML], as last assigned. *)
Inductive Content :=
  | InnerText (s : list N)
  | InnerHTML (s : list N).

(** A call of [loadExcelData] between its [await]s: waiting for
    [fetchFromMultiplePaths], waiting for [arrayBuffer], or over. *)
Inductive Load :=
  | Fetching (fileName : list N)
  | Buffering (fileName : list N) (response : Response.t)
  | Finished.

(** The globals and elements outside rendering.  A timer handle is a
    positive integer, hence truthy; [setTimeout] hands out a handle it has
    not handed out before.  [loads] holds the calls of [loadExcelData] in the
    order they were made.  A property of an element that the script has not
    assigned yet is [None]: it is as the document has it. *)
Module App.
Record State := {
  currentData : list Property;
  loadTimeout : option positive;
  timers : gmap positive Callback;
  nextHandle : positive;
  loads : list Load;
  status : option Content;
  statusLed : option (list N);
  pathTrace : option (list N);
  display : Display.t
}.
End App.

Definition ledBlue : list N :=
  str "w-2.5 h-2.5 rounded-full bg-blue-500 animate-pulse border border-white/20".
Definition ledGreen : list N :=
  str "w-2.5 h-2.5 rounded-full bg-emerald-500 border border-white/20".
Definition ledRed : list N :=
  str "w-2.5 h-2.5 rounded-full bg-red-500 border border-white/20".

Definition redSpan (body : list N) : list N :=
  str "<span style=" ++ [dquote] ++ str "color:#f87171;" ++ [dquote]
  ++ str ">" ++ body ++ str "</span>".

Definition clearTimeout (handle : option positive)
    (timers : gmap positive Callback) : gmap positive Callback :=
  match handle with
  | Some h => delete h timers
  | None => timers
  end.

(** ** 2. Map initialisation *)

(** What Leaflet does to the statements of [initMap]'s [try] block: the
    first of them that throws, if any. *)
Inductive Leaflet :=
  | MapThrows
  | TileLayerThrows
  | ZoomControlThrows
  | FeatureGroupThrows
  | Works.

(** One run of the [try] block, and whether it got to its end.  [map] is
    assigned once [L.map(...).setView(...)] has returned, [markers] by the
    last statement. *)
Definition initMapTry (leaflet : Leaflet) (d : Display.t) : Display.t * bool :=
  let home :=
    SetView (decimalToNumber false 388 (-1)) (decimalToNumber true 775 (-1))
      (ofZ 8) in
  match leaflet with
  | MapThrows => (d, false)
  | TileLayerThrows | ZoomControlThrows | FeatureGroupThrows =>
      (Display.set_map (Some home) d, false)
  | Works =>
      (Display.set_markers (Some []) (Display.set_map (Some home) d), true)
  end.

Definition initMap (leaflet : Leaflet) (s : App.State) : App.State :=
  let '(d, completed) := initMapTry leaflet (App.display s) in
  {| App.currentData := App.currentData s;
     App.loadTimeout := App.loadTimeout s;
     App.timers :=
       if completed then App.timers s
       else <[ App.nextHandle s := RetryMap ]> (App.timers s);
     App.nextHandle :=
       if completed then App.nextHandle s else Pos.succ (App.nextHandle s);
     App.loads := App.loads s;
     App.status := App.status s;
     App.statusLed := App.statusLed s;
     App.pathTrace := App.pathTrace s;
     App.display := d |}.

(** The callback of the retry timer. *)
Definition initMapRetry (leaflet : Leaflet) (s : App.State) : App.State :=
  {| App.currentData := App.currentData s;
     App.loadTimeout := App.loadTimeout s;
     App.timers := App.timers s;
     App.nextHandle := App.nextHandle s;
     App.loads := App.loads s;
     App.status := App.status s;
     App.statusLed := App.statusLed s;
     App.pathTrace := App.pathTrace s;
     App.display := fst (initMapTry leaflet (App.display s)) |}.

(** ** 5. Excel loading: the asynchronous function, [await] by [await] *)

(** From the call to the first [await]: the watchdog is re-armed, the status
    display set, and [fetchFromMultiplePaths] called. *)
Definition loadExcelData_call (fileName : list N) (s : App.State) : App.State :=
  {| App.currentData := App.currentData s;
     App.loadTimeout := Some (App.nextHandle s);
     App.timers :=
       <[ App.nextHandle s := Watchdog ]>
         (clearTimeout (App.loadTimeout s) (App.timers s));
     App.nextHandle := Pos.succ (App.nextHandle s);
     App.loads := App.loads s ++ [Fetching fileName];
     App.status := Some (InnerText (str "ACCESSING " ++ fileName ++ str "..."));
     App.statusLed := Some ledBlue;
     App.pathTrace := Some (str "Searching" ++ [8230%N]);
     App.display := App.display s |}.

(** The callback of the watchdog. *)
Definition watchdog (s : App.State) : App.State :=
  {| App.currentData := App.currentData s;
     App.loadTimeout := App.loadTimeout s;
     App.timers := App.timers s;
     App.nextHandle := App.nextHandle s;
     App.loads := App.loads s;
     App.status :=
       Some (InnerHTML (redSpan
         (str "TIMEOUT " ++ [8212%N]
          ++ str " loading stalled. Check browser console for details.")));
     App.statusLed := Some ledRed;
     App.pathTrace := Some (str "Watchdog triggered after 15 s");
     App.display := App.display s |}.

(** The [catch] block. *)
Definition loadExcelData_catch (message : list N) (s : App.State) : App.State :=
  {| App.currentData := App.currentData s;
     App.loadTimeout := App.loadTimeout s;
     App.timers := clearTimeout (App.loadTimeout s) (App.timers s);
     App.nextHandle := App.nextHandle s;
     App.loads := App.loads s;
     App.status := Some (InnerHTML (redSpan (str "LOAD FAILED: " ++ message)));
     App.statusLed := Some ledRed;
     App.pathTrace := Some (str "Error " ++ [8212%N] ++ str " see console");
     App.display := App.display s |}.

(** Load [i] resumes from [await fetchFromMultiplePaths(fileName)]. *)
Definition loadExcelData_fetched (i : nat) (fetch : Network) (s : App.State)
    : App.State :=
  match App.loads s !! i with
  | Some (Fetching fileName) =>
      match snd (fetchFromMultiplePaths fetch fileName) with
      | inl (response, path) =>
          {| App.currentData := App.currentData s;
             App.loadTimeout := App.loadTimeout s;
             App.timers := App.timers s;
             App.nextHandle := App.nextHandle s;
             App.loads := <[ i := Buffering fileName response ]> (App.loads s);
             App.status := App.status s;
             App.statusLed := App.statusLed s;
             App.pathTrace := Some (str "Loaded: " ++ path);
             App.display := App.display s |}
      | inr message =>
          loadExcelData_catch message
            {| App.currentData := App.currentData s;
               App.loadTimeout := App.loadTimeout s;
               App.timers := App.timers s;
               App.nextHandle := App.nextHandle s;
               App.loads := <[ i := Finished ]> (App.loads s);
               App.status := App.status s;
               App.statusLed := App.statusLed s;
               App.pathTrace := App.pathTrace s;
               App.display := App.display s |}
      end
  | _ => s
  end.

(** Load [i] resumes from [await response.arrayBuffer()] and runs to its
    end. *)
Definition loadExcelData_buffered (i : nat) (libs : Libraries) (s : App.State)
    : App.State :=
  match App.loads s !! i with
  | Some (Buffering fileName response) =>
      let over := <[ i := Finished ]> (App.loads s) in
      match Response.sheet response with
      | inr message =>
          loadExcelData_catch message
            {| App.currentData := App.currentData s;
               App.loadTimeout := App.loadTimeout s;
               App.timers := App.timers s;
               App.nextHandle := App.nextHandle s;
               App.loads := over;
               App.status := App.status s;
               App.statusLed := App.statusLed s;
               App.pathTrace := App.pathTrace s;
               App.display := App.display s |}
      | inl rawJson =>
          let data := loadExcelData rawJson in
          let loaded d :=
            {| App.currentData := data;
               App.loadTimeout := App.loadTimeout s;
               App.timers := clearTimeout (App.loadTimeout s) (App.timers s);
               App.nextHandle := App.nextHandle s;
               App.loads := over;
               App.status :=
                 Some (InnerText
                   (fileName ++ str " LOADED " ++ [8212%N] ++ str " "
                    ++ NumberToString (Array_length data)
                    ++ str " properties"));
               App.statusLed := Some ledGreen;
               App.pathTrace := App.pathTrace s;
               App.display := d |} in
          match renderUI libs data (App.display s) with
          | Returns d => loaded d
          | Throws d message => loadExcelData_catch message (loaded d)
          end
      end
  | _ => s
  end.

(** ** 10. Event wiring and bootstrap *)

(** What can happen to the page: the window's [load] event, a [change] of
    the file selector, a load resuming from one of its [await]s, a timer
    firing, a click on a card.  An event carries what the network and the
    libraries do during it.  When a timer fires is left open: an armed timer
    may fire at any later point. *)
Inductive Event :=
  | WindowLoad (leaflet : Leaflet)
  | Change (value : list N)
  | Fetched (i : nat) (fetch : Network)
  | Buffered (i : nat) (libs : Libraries)
  | TimerFires (handle : positive) (leaflet : Leaflet)
  | Click (i : nat).

Definition step (s : App.State) (e : Event) : App.State :=
  match e with
  | WindowLoad leaflet =>
      loadExcelData_call (str "Feb012026") (initMap leaflet s)
  | Change value => loadExcelData_call value s
  | Fetched i fetch => loadExcelData_fetched i fetch s
  | Buffered i libs => loadExcelData_buffered i libs s
  | TimerFires handle leaflet =>
      let fired :=
        {| App.currentData := App.currentData s;
           App.loadTimeout := App.loadTimeout s;
           App.timers := delete handle (App.timers s);
           App.nextHandle := App.nextHandle s;
           App.loads := App.loads s;
           App.status := App.status s;
           App.statusLed := App.statusLed s;
           App.pathTrace := App.pathTrace s;
           App.display := App.display s |} in
      match App.timers s !! handle with
      | Some Watchdog => watchdog fired
      | Some RetryMap => initMapRetry leaflet fired
      | None => s
      end
  | Click i =>
      match Display.listingGrid (App.display s) with
      | Some cards =>
          match cards !! i, Display.map (App.display s) with
          | Some c, Some _ =>
              {| App.currentData := App.currentData s;
                 App.loadTimeout := App.loadTimeout s;
                 App.timers := App.timers s;
                 App.nextHandle := App.nextHandle s;
                 App.loads := App.loads s;
                 App.status := App.status s;
                 App.statusLed := App.statusLed s;
                 App.pathTrace := App.pathTrace s;
                 App.display :=
                   Display.set_map
                     (Some (FlyTo (fst (c_target c)) (snd (c_target c))
                              (ofZ 13)))
                     (App.display s) |}
          | _, _ => s
          end
      | None => s
      end
  end.

(** The state when the script has run: the globals at their initialisers,
    the page as the document has it. *)
Definition initial (sidebar : Sidebar) : App.State :=
  {| App.currentData := [];
     App.loadTimeout := None;
     App.timers := ∅;
     App.nextHandle := 1%positive;
     App.loads := [];
     App.status := None;
     App.statusLed := None;
     App.pathTrace := None;
     App.display :=
       {| Display.map := None; Display.markers := None;
          Display.chartInstance := None; Display.listingGrid := None;
          Display.listingCount := None; Display.sidebar := sidebar |} |}.

(** The state after a sequence of events. *)
Definition run (events : list Event) (s : App.State) : App.State :=
  fold_left step events s.

(** ** Dependency checker (v2.4) *)

(** Which of the three library globals exist. *)
Record Globals := { has_L : bool; has_Chart : bool; has_XLSX : bool }.

(** The array [missing] of one run of [check]. *)
Definition missing (g : Globals) : list (list N) :=
  (if has_L g then [] else [str "Leaflet"])
  ++ (if has_Chart g then [] else [str "Chart.js"])
  ++ (if has_XLSX g then [] else [str "SheetJS"]).

Inductive Promise :=
  | Pending
  | Resolved
  | Rejected (message : list N).

(** One run of [check], [now] being what [Date.now()] returns in it;
    [Pending] is the branch that sets the timer for the next run. *)
Definition check (deadline now : Z) (g : Globals) : Promise :=
  if (length (missing g) =? 0)%nat then Resolved
  else if deadline <? now then
    Rejected (str "Dependencies never loaded: "
              ++ Array_join (str ", ") (missing g))
  else Pending.

(** The runs of [check], each with the clock and the globals it sees, until
    one settles the promise. *)
Fixpoint poll (deadline : Z) (checks : list (Z * Globals)) : Promise :=
  match checks with
  | [] => Pending
  | (now, g) :: rest =>
      match check deadline now g with
      | Pending => poll deadline rest
      | settled => settled
      end
  end.

(** [waitForDeps], [start] being what [Date.now()] returns in the executor;
    the first run of [check] is made at once, each later one when the timer
    of the one before fires. *)
Definition waitForDeps (start : Z) (checks : list (Z * Globals)) : Promise :=
  poll (start + 10000) checks.

(* ===================================================================== *)
(** * Part III. Notions the statements use                                *)
(* ===================================================================== *)

(** ** The language of the hyperlink RegExp *)

(** [s] begins with a match of the RegExp whose group 1 is [u]: the function
    token in any letter case, white space, and a non-empty quoted text with
    no quote inside. *)
Definition FormulaAt (s u : list N) : Prop :=
  exists tok ws rest,
    s = tok ++ ws ++ dquote :: u ++ dquote :: rest /\
    List.map canonicalize tok = str "=HYPERLINK(" /\
    Forall (fun c => isWhiteSpace c = true) ws /\
    u <> [] /\
    ~ In dquote u.

(** No match of the RegExp begins at any of the first [n] positions. *)
Definition NoFormulaBefore (n : nat) (s : list N) : Prop :=
  forall k u, (k < n)%nat -> ~ FormulaAt (skipn k s) u.

(** No match of the RegExp anywhere in [s]. *)
Definition NoFormula (s : list N) : Prop :=
  forall k u, ~ FormulaAt (skipn k s) u.

(** ** The order of Numbers *)

(** The value of a binary64 number in units of 2^-1074, the least positive
    one: an integer for every finite value, and a bound of all of them for
    the infinities. *)
Definition SFval (x : spec_float) : Z :=
  match x with
  | S754_zero _ => 0
  | S754_nan => 0
  | S754_infinity s => cond_Zopp s (2 ^ 2200)
  | S754_finite s m e => cond_Zopp s (Zpos m * 2 ^ (e + 1074))
  end.

(** A rounded result that kept the sign [s] and did not vanish. *)
Definition signed (s : bool) (r : spec_float) : Prop :=
  match r with
  | S754_finite s' _ _ | S754_infinity s' => s' = s
  | _ => False
  end.

(** The rank of a Number that is not NaN: its value in units of 2^-1074. *)
Definition rank (x : float) : Z := SFval (Prim2SF x).

(** The canonical mantissa and exponent of a positive integer below 2^53. *)
Definition canonical (p : positive) : positive * Z :=
  match 53 - Zpos (digits2_pos p) with
  | Zpos k => (Pos.iter xO p k, Zneg k)
  | _ => (p, 0)
  end.

(** The sum of a sequence of integers. *)
Fixpoint Zsum (zs : list Z) : Z :=
  match zs with
  | [] => 0
  | z :: t => z + Zsum t
  end.

(** The order a stable descending sort on [key] leaves: a greater key first
    and, among equal keys, the earlier position first. *)
Definition before {A} (key : A -> Z) (pos : A -> nat) (x y : A) : Prop :=
  key y < key x \/ (key x = key y /\ (pos x < pos y)%nat).

(** ** Cells that hold no number *)



(** ** Statistics *)

(** The sum of a sequence of Numbers, accumulated from +0 in sequence order,
    and their arithmetic mean: the sum divided by the count. *)
Definition total (xs : list float) : float := fold_left add xs zero.

Definition mean (xs : list float) : float :=
  (total xs / ofZ (Z.of_nat (length xs)))%float.

(** What a record contributes to the average price per acre. *)
Definition perAcreOrZero (p : Property) : float :=
  if (0 <? acres p)%float then (price p / acres p)%float else zero.

(** ** Ranking *)

(** [a] is ranked before [b]: a higher score, or the same score and a lower
    id. *)
Definition ranksBefore (a b : Property) : Prop :=
  (llmScore b <? llmScore a)%float = true \/
  ((llmScore a =? llmScore b)%float = true /\ (id a < id b)%nat).

(** ** Sample data *)

(** A record with the given id, price, acreage and score. *)
Definition sample (i : nat) (price acres score : float) : Property :=
  {| id := i; address := str "A"; price := price; acres := acres;
     llmScore := score; lat := ofZ 38; lng := ofZ (-77);
     driveTime := ofZ 12; url := str "#"; type := str "Land" |}.

(** A row with the given price and acreage cells and a numeric latitude and
    longitude. *)
Definition sampleRow (priceCell acresCell : Value) : RawRow :=
  <[ str "Price" := priceCell ]>
    (<[ str "Acres" := acresCell ]>
      (<[ str "Latitude" := VNumber (ofZ 38) ]>
        (<[ str "Longitude" := VNumber (ofZ (-77)) ]> ∅))).

(** The two rows of the first scenario of the specification: the second has
    price 0. *)
Definition scenarioRows : list RawRow :=
  [ <[ str "Price" := VNumber (ofZ 300000) ]>
      (<[ str "Acres" := VNumber (ofZ 10) ]>
        (<[ str "Latitude" := VNumber (decimalToNumber false 389 (-1)) ]>
          (<[ str "Longitude" := VNumber (decimalToNumber true 774 (-1)) ]>
            (<[ str "LLM Score" := VNumber (ofZ 95) ]>
              (<[ str "Address" := VString (str "A") ]> ∅)))));
    <[ str "Price" := VNumber (ofZ 0) ]>
      (<[ str "Acres" := VNumber (ofZ 5) ]>
        (<[ str "Latitude" := VNumber (decimalToNumber false 388 (-1)) ]>
          (<[ str "Longitude" := VNumber (decimalToNumber true 773 (-1)) ]> ∅))) ].

(** The text of a hyperlink formula: [=HYPERLINK(QurlQ,QlabelQ)], Q being
    the double quote, after the given prefix. *)
Definition formulaText (prefix url : list N) : list N :=
  prefix ++ str "=HYPERLINK(" ++ dquote :: url
    ++ dquote :: (str "," ++ dquote :: str "label" ++ dquote :: str ")").

(** ** Fetching *)

(** The request of [path] is answered with a Response that is [ok]. *)
Definition answers (fetch : Network) (path : list N) : Prop :=
  exists res, fetch path = Resolves res /\ Response.ok res = true.

(** A network on which exactly the listed paths hold the given sheet. *)
Definition serving (paths : list (list N)) (rows : list RawRow) : Network :=
  fun path =>
    if existsb (fun p => bool_decide (p = path)) paths
    then Resolves {| Response.ok := true; Response.status := 200;
                     Response.sheet := inl rows |}
    else Resolves {| Response.ok := false; Response.status := 404;
                     Response.sheet := inr [] |}.

(** ** The page *)

(** A watchdog is armed. *)
Definition watched (s : App.State) : Prop :=
  exists h, App.timers s !! h = Some Watchdog.

(** A load that has not run to its end. *)
Definition inFlight (l : Load) : bool :=
  match l with
  | Finished => false
  | _ => true
  end.

(** The page shows [currentData]: the status line counts it, the grid holds
    its cards in order, the chart its bubbles, the sidebar is the one
    [renderAnalysis] leaves, and the marker layer, where there is one, holds
    either its markers in order or nothing. *)
Definition shows (s : App.State) : Prop :=
  let data := App.currentData s in
  let d := App.display s in
  (exists fileName,
     App.status s =
     Some (InnerText
       (fileName ++ str " LOADED " ++ [8212%N] ++ str " "
        ++ NumberToString (Array_length data) ++ str " properties"))) /\
  Display.listingGrid d = Some (List.map card data) /\
  Display.listingCount d =
    Some (NumberToString (Array_length data) ++ str " Strategic Assets") /\
  Display.chartInstance d = Some (chartData data) /\
  renderAnalysis data (Display.sidebar d) = Normal (Display.sidebar d) /\
  (forall layers, Display.markers d = Some layers ->
     layers = List.map marker data \/ layers = []).

(** Libraries none of whose calls throws. *)
Definition quiet : Libraries :=
  {| clearLayers := None; circleMarker := fun _ => None; chartDestroy := None;
     newChart := None; fitBounds := None; typeError := str "TypeError" |}.

(** A sidebar with nothing in it. *)
Definition blank : Sidebar :=
  {| el_avgPrice := []; el_avgAcres := []; el_marketNarrative := [];
     el_topPicks := [] |}.

(** The outcome's state of the page. *)
Definition pageOf {A} (o : Outcome A) : A :=
  match o with
  | Returns a => a
  | Throws a _ => a
  end.

(** Timers and handles: every handle in use is below the next one, and the
    only watchdog that can be armed is the one [loadTimeout] names. *)
Record wellTimed (s : App.State) : Prop := {
  timed_fresh : forall h cb,
    App.timers s !! h = Some cb -> (h < App.nextHandle s)%positive;
  timed_handle : forall h,
    App.loadTimeout s = Some h -> (h < App.nextHandle s)%positive;
  timed_watchdog : forall h,
    App.timers s !! h = Some Watchdog -> App.loadTimeout s = Some h
}.

(** The marker layer exists only on a map. *)
Definition mapped (d : Display.t) : Prop :=
  Display.markers d <> None -> Display.map d <> None.

(** What holds of the page after every sequence of events. *)
Record invariant (s : App.State) : Prop := {
  inv_timed : wellTimed s;
  inv_blue : App.statusLed s = Some ledBlue <-> watched s;
  inv_flight : watched s ->
    exists i l, App.loads s !! i = Some l /\ inFlight l = true;
  inv_green : App.statusLed s = Some ledGreen -> shows s;
  inv_mapped : mapped (App.display s);
  inv_data : exists rawJson, App.currentData s = loadExcelData rawJson
}.

(** A network on which the default file is in [data/] only, holding the
    rows of the first scenario. *)
Definition sampleNetwork : Network :=
  serving [str "data/Feb012026.xlsx"] scenarioRows.

(** ** Numbers that are neither NaN nor of the other sign *)

(** [r] is a zero, a finite number or an infinity of sign [s]. *)
Definition signedOrZero (s : bool) (r : spec_float) : Prop :=
  match r with
  | S754_zero s' | S754_finite s' _ _ | S754_infinity s' => s' = s
  | S754_nan => False
  end.

(** ** Polling *)

(** No timer fires early: run [k] of [check], counted from [k = first],
    sees a clock of at least [start + 200 k]. *)
Fixpoint onTime (start : Z) (first : nat) (checks : list (Z * Globals)) : bool :=
  match checks with
  | [] => true
  | (now, _) :: rest =>
      (start + 200 * Z.of_nat first <=? now) && onTime start (S first) rest
  end.

(** A page on which no library ever arrives, polled every 200 ms. *)
Definition neverLoaded (n : nat) : list (Z * Globals) :=
  List.map (fun k => (200 * Z.of_nat k,
                      {| has_L := false; has_Chart := true; has_XLSX := false |}))
           (seq 0 n).

(* ===================================================================== *)
(** * Part IV. Properties                                                 *)
(* ===================================================================== *)

(** Corelib states the floating-point specification with its own copies of
    the integer operations; [stdz] turns them into the Standard Library's. *)

Ltac stdz :=
  change IntDef.Z.compare with Z.compare in *;
  change IntDef.Z.add with Z.add in *;
  change IntDef.Z.sub with Z.sub in *;
  change IntDef.Z.opp with Z.opp in *;
  change IntDef.Z.mul with Z.mul in *;
  change IntDef.Z.max with Z.max in *;
  change IntDef.Z.min with Z.min in *;
  change IntDef.Z.leb with Z.leb in *;
  change IntDef.Z.eqb with Z.eqb in *;
  change IntDef.Z.even with Z.even in *;
  change PosDef.Pos.compare_cont with Pos.compare_cont in *;
  change PosDef.Pos.succ with Pos.succ in *;
  change (@PosDef.Pos.iter) with (@Pos.iter) in *.

(** ** Numbers: comparisons through their specification *)

Lemma Prim2SF_zero : Prim2SF zero = S754_zero false.
Proof. reflexivity. Qed.

Lemma SFcompare_refl_nan x : SFeqb x x = false -> x = S754_nan.
Proof.
  destruct x as [s|s| |s m e]; cbn; try discriminate; try reflexivity.
  - destruct s; discriminate.
  - unfold SFeqb, SFcompare. stdz. intros H.
    rewrite Z.compare_refl, Pos.compare_cont_refl in H. destruct s; discriminate.
Qed.

Lemma is_nan_spec x : is_nan x = true -> Prim2SF x = S754_nan.
Proof.
  unfold is_nan. rewrite FloatAxioms.eqb_spec. intros H.
  apply SFcompare_refl_nan. now apply negb_true_iff.
Qed.

Lemma is_nan_false_spec x : is_nan x = false -> Prim2SF x <> S754_nan.
Proof.
  unfold is_nan. rewrite FloatAxioms.eqb_spec. intros H E. rewrite E in H. discriminate.
Qed.

Lemma is_zero_spec x : is_zero x = true -> exists s, Prim2SF x = S754_zero s.
Proof.
  unfold is_zero. rewrite FloatAxioms.eqb_spec, Prim2SF_zero.
  destruct (Prim2SF x) as [s|s| |s m e]; cbn; try discriminate.
  - eauto.
  - destruct s; discriminate.
  - destruct s; discriminate.
Qed.

Lemma ltb_zero_orZero x : (0 <? orZero x)%float = (0 <? x)%float.
Proof.
  unfold orZero, truthyNumber.
  destruct (is_nan x) eqn:En; [|destruct (is_zero x) eqn:Ez]; cbn [orb negb].
  - apply is_nan_spec in En. rewrite (FloatAxioms.ltb_spec _ x), En. reflexivity.
  - apply is_zero_spec in Ez as [s Ez].
    rewrite (FloatAxioms.ltb_spec _ x), Ez. reflexivity.
  - reflexivity.
Qed.

(** ** Numbers: the order of binary64 values *)

Lemma fexp_eq e : fexp prec emax e = Z.max (e - 53) (-1074).
Proof. reflexivity. Qed.

Lemma pow2_pred d : 0 < d -> 2 ^ d = 2 * 2 ^ (d - 1).
Proof.
  intros Hd. rewrite <- Z.pow_succ_r by lia. f_equal. lia.
Qed.

Lemma digits2_pos_bounds m :
  2 ^ (Zpos (digits2_pos m) - 1) <= Zpos m < 2 ^ Zpos (digits2_pos m).
Proof.
  induction m as [m IH|m IH|]; cbn [digits2_pos]; stdz;
    [rewrite Pos2Z.inj_succ, (Pos2Z.inj_xI m)
    |rewrite Pos2Z.inj_succ, (Pos2Z.inj_xO m)
    |cbn; lia];
    remember (Zpos (digits2_pos m)) as d eqn:Ed;
    replace (Z.succ d - 1) with d by lia;
    rewrite Z.pow_succ_r by lia;
    rewrite (pow2_pred d) in * by lia; lia.
Qed.

(** What validity says of a finite value [m * 2^e]. *)
Lemma bounded_inv m e :
  bounded prec emax m e = true ->
  -1074 <= e <= 971 /\ 0 < Zpos m < 2 ^ 53 /\ (-1074 < e -> 2 ^ 52 <= Zpos m).
Proof.
  unfold bounded, canonical_mantissa. rewrite fexp_eq. stdz.
  intros H. apply andb_true_iff in H as [Hc He].
  apply Z.eqb_eq in Hc. apply Z.leb_le in He.
  change (emax - prec) with 971 in He.
  pose proof (digits2_pos_bounds m) as [Hlo Hhi].
  remember (Zpos (digits2_pos m)) as d eqn:Ed.
  assert (Hd : d <= 53) by lia.
  split; [lia|]. split.
  - split; [lia|]. eapply Z.lt_le_trans; [exact Hhi|].
    apply Z.pow_le_mono_r; lia.
  - intros Hgt. assert (d = 53) by lia. subst d.
    replace 52 with (53 - 1) by lia. rewrite <- H. exact Hlo.
Qed.

Lemma finite_val_bounds m e :
  bounded prec emax m e = true -> 0 < Zpos m * 2 ^ (e + 1074) < 2 ^ 2200.
Proof.
  intros H. apply bounded_inv in H as (He & Hm & _).
  assert (Hp : 0 < 2 ^ (e + 1074)) by (apply Z.pow_pos_nonneg; lia).
  assert (Hq : 2 ^ (e + 1074) <= 2 ^ 2045) by (apply Z.pow_le_mono_r; lia).
  split; [nia|].
  assert (E : 2 ^ 2200 = 2 ^ 53 * 2 ^ 2147) by (rewrite <- Z.pow_add_r by lia; reflexivity).
  rewrite E.
  assert (2 ^ 2045 <= 2 ^ 2147) by (apply Z.pow_le_mono_r; lia).
  assert (0 < 2 ^ 53) by (apply Z.pow_pos_nonneg; lia).
  nia.
Qed.

Lemma finite_compare m1 e1 m2 e2 :
  bounded prec emax m1 e1 = true -> bounded prec emax m2 e2 = true ->
  match e1 ?= e2 with
  | Eq => Pos.compare_cont Eq m1 m2
  | Lt => Lt
  | Gt => Gt
  end = (Zpos m1 * 2 ^ (e1 + 1074) ?= Zpos m2 * 2 ^ (e2 + 1074)).
Proof.
  intros H1 H2.
  apply bounded_inv in H1 as (He1 & Hm1 & Hn1).
  apply bounded_inv in H2 as (He2 & Hm2 & Hn2).
  assert (H53 : 2 ^ 53 = 2 * 2 ^ 52) by reflexivity.
  assert (Hlt : forall ma mb ea eb,
            -1074 <= ea -> ea < eb -> 0 < ma < 2 ^ 53 -> 2 ^ 52 <= mb ->
            ma * 2 ^ (ea + 1074) < mb * 2 ^ (eb + 1074)).
  { intros ma mb ea eb Ha Hab Hma Hmb.
    replace (eb + 1074) with ((ea + 1074) + (eb - ea)) by lia.
    rewrite (Z.pow_add_r 2 (ea + 1074) (eb - ea)) by lia.
    assert (0 < 2 ^ (ea + 1074)) by (apply Z.pow_pos_nonneg; lia).
    assert (2 ^ 1 <= 2 ^ (eb - ea)) by (apply Z.pow_le_mono_r; lia).
    change (2 ^ 1) with 2 in *.
    remember (2 ^ (ea + 1074)) as A. remember (2 ^ (eb - ea)) as K.
    assert (H1 : ma * A < 2 * mb * A) by (apply Z.mul_lt_mono_pos_r; lia).
    assert (H2 : mb * A * 2 <= mb * A * K)
      by (apply Z.mul_le_mono_nonneg_l; [apply Z.mul_nonneg_nonneg|]; lia).
    lia. }
  destruct (Z.compare_spec e1 e2) as [E|L|G]; symmetry.
  - subst e2. assert (0 < 2 ^ (e1 + 1074)) by (apply Z.pow_pos_nonneg; lia).
    change (Pos.compare_cont Eq m1 m2) with (Zpos m1 ?= Zpos m2).
    destruct (Z.compare_spec (Zpos m1) (Zpos m2)) as [E|L|G];
      [apply Z.compare_eq_iff|apply Z.compare_lt_iff|apply Z.compare_gt_iff]; nia.
  - apply Z.compare_lt_iff. apply Hlt; lia.
  - apply Z.compare_gt_iff. apply Hlt; lia.
Qed.

Lemma SFcompare_val x y :
  valid_binary x = true -> valid_binary y = true ->
  x <> S754_nan -> y <> S754_nan ->
  SFcompare x y = Some (SFval x ?= SFval y).
Proof.
  intros Vx Vy Nx Ny.
  assert (Hh : 0 < 2 ^ 2200) by (apply Z.pow_pos_nonneg; lia).
  destruct x as [sx|sx| |sx mx ex]; [| |congruence|];
    destruct y as [sy|sy| |sy my ey]; try congruence;
    cbn [valid_binary] in Vx, Vy;
    try (pose proof (finite_val_bounds _ _ Vx));
    try (pose proof (finite_val_bounds _ _ Vy));
    cbn [SFcompare SFval]; f_equal; symmetry;
    try (destruct sx); try (destruct sy); cbn [cond_Zopp];
    try reflexivity;
    try (apply Z.compare_eq_iff; lia);
    try (apply Z.compare_lt_iff; lia);
    try (apply Z.compare_gt_iff; lia).
  - stdz. rewrite Z.compare_opp. rewrite <- (finite_compare my ey mx ex) by assumption.
    rewrite (Z.compare_antisym ey ex). rewrite (Pos.compare_cont_antisym).
    destruct (ey ?= ex); reflexivity.
  - stdz. symmetry. apply finite_compare; assumption.
Qed.

(** ** Numbers: the sign of a difference *)

Lemma shr_1_m r : 0 <= shr_m r -> shr_m (shr_1 r) = shr_m r / 2.
Proof.
  destruct r as [m rb sb]; cbn [shr_m]. intros Hm.
  destruct m as [|p|p]; [reflexivity| |lia].
  destruct p as [p|p|]; cbn [shr_1 shr_m].
  - apply Z.div_unique with (r := 1); lia.
  - apply Z.div_unique with (r := 0); lia.
  - reflexivity.
Qed.

Lemma iter_pos_shr_1 p : forall r,
  0 <= shr_m r -> shr_m (SpecFloat.iter_pos shr_1 p r) = shr_m r / 2 ^ Zpos p.
Proof.
  induction p as [p IH|p IH|]; intros r Hr; cbn [SpecFloat.iter_pos].
  - assert (H2 : 0 <= shr_m (shr_1 r)) by (rewrite shr_1_m by lia; apply Z.div_pos; lia).
    assert (Hp : 0 < 2 ^ Zpos p) by (apply Z.pow_pos_nonneg; lia).
    assert (H3 : 0 <= shr_m (SpecFloat.iter_pos shr_1 p (shr_1 r)))
      by (rewrite IH by lia; apply Z.div_pos; lia).
    rewrite IH, IH, shr_1_m by lia.
    rewrite !Z.div_div by lia. f_equal.
    rewrite (Pos2Z.inj_xI p), Z.pow_add_r, Z.pow_mul_r by lia.
    change (2 ^ 2) with 4. change (2 ^ 1) with 2.
    replace 4 with (2 * 2) by lia. rewrite Z.pow_mul_l. lia.
  - assert (Hp : 0 < 2 ^ Zpos p) by (apply Z.pow_pos_nonneg; lia).
    assert (H3 : 0 <= shr_m (SpecFloat.iter_pos shr_1 p r))
      by (rewrite IH by lia; apply Z.div_pos; lia).
    rewrite IH, IH by lia.
    rewrite !Z.div_div by lia. f_equal.
    rewrite (Pos2Z.inj_xO p), Z.pow_mul_r by lia.
    change (2 ^ 2) with 4.
    replace 4 with (2 * 2) by lia. rewrite Z.pow_mul_l. lia.
  - rewrite shr_1_m by lia. reflexivity.
Qed.

Lemma shr_m_of_loc m l : shr_m (shr_record_of_loc m l) = m.
Proof. destruct l as [|[]]; reflexivity. Qed.

Lemma shr_fexp_pos m e l :
  0 < m -> -1074 <= e ->
  0 < shr_m (fst (shr_fexp prec emax m e l)) /\
  -1074 <= snd (shr_fexp prec emax m e l).
Proof.
  intros Hm He. unfold shr_fexp, shr. rewrite fexp_eq.
  destruct m as [|p|p]; try lia. cbn [Zdigits2]. stdz.
  pose proof (digits2_pos_bounds p) as [Hlo _].
  remember (Zpos (digits2_pos p)) as d eqn:Ed.
  destruct (Z.max (d + e - 53) (-1074) - e) as [|q|q] eqn:En;
    cbn [fst snd]; rewrite ?shr_m_of_loc; try (split; lia).
  rewrite iter_pos_shr_1 by (rewrite shr_m_of_loc; lia).
  rewrite shr_m_of_loc. split; [|lia].
  assert (Hq : Zpos q = d - 53) by lia.
  assert (Hpq : 2 ^ Zpos q <= 2 ^ (d - 1)) by (apply Z.pow_le_mono_r; lia).
  assert (Hp : 0 < 2 ^ Zpos q) by (apply Z.pow_pos_nonneg; lia).
  assert (1 <= Zpos p / 2 ^ Zpos q) by (apply Z.div_le_lower_bound; lia).
  lia.
Qed.

Lemma round_nearest_even_pos m l : 0 < m -> 0 < round_nearest_even m l.
Proof.
  intros Hm. destruct l as [|[]]; cbn [round_nearest_even]; stdz; try lia.
  destruct (Z.even m); lia.
Qed.

Lemma binary_round_aux_signed s m e l :
  0 < m -> -1074 <= e -> signed s (binary_round_aux prec emax s m e l).
Proof.
  intros Hm He. unfold binary_round_aux.
  pose proof (shr_fexp_pos m e l Hm He) as [H1 H2].
  destruct (shr_fexp prec emax m e l) as [mrs' e']. cbn [fst snd] in H1, H2.
  pose proof (round_nearest_even_pos (shr_m mrs') (loc_of_shr_record mrs') H1) as H3.
  pose proof (shr_fexp_pos _ e' loc_Exact H3 H2) as [H4 H5].
  destruct (shr_fexp prec emax _ e' loc_Exact) as [mrs'' e''].
  cbn [fst snd] in H4, H5.
  destruct (shr_m mrs'') as [|q|q]; try lia.
  destruct (IntDef.Z.leb e'' (IntDef.Z.sub emax prec)); reflexivity.
Qed.

Lemma binary_round_signed s m e :
  -1074 <= e -> signed s (binary_round prec emax s m e).
Proof.
  intros He. unfold binary_round, shl_align. rewrite fexp_eq. stdz.
  destruct (Z.max (Zpos (digits2_pos m) + e - 53) (-1074) - e) as [|q|q] eqn:En;
    apply binary_round_aux_signed; lia.
Qed.

Lemma Pos_iter_xO m d : Zpos (Pos.iter xO m d) = Zpos m * 2 ^ Zpos d.
Proof.
  induction d as [|d IH] using Pos.peano_ind.
  - cbn. lia.
  - rewrite Pos.iter_succ, Pos2Z.inj_succ, Z.pow_succ_r by lia.
    rewrite (Pos2Z.inj_xO (Pos.iter xO m d)), IH. lia.
Qed.

Lemma shl_align_val m e e' :
  e' <= e -> Zpos (fst (shl_align m e e')) = Zpos m * 2 ^ (e - e').
Proof.
  intros H. unfold shl_align. stdz.
  destruct (e' - e) as [|q|q] eqn:En; cbn [fst]; try lia.
  - replace (e - e') with 0 by lia. lia.
  - rewrite Pos_iter_xO. f_equal. f_equal. lia.
Qed.

Lemma cond_Zopp_mul s a c : cond_Zopp s a * c = cond_Zopp s (a * c).
Proof. destruct s; cbn [cond_Zopp]; stdz; lia. Qed.

Lemma SFltb_zero_signed s r :
  signed s r -> SFltb (S754_zero false) r = negb s.
Proof.
  destruct r as [s'|s'| |s' m e]; cbn [signed]; try tauto;
    intros <-; destruct s'; reflexivity.
Qed.

Lemma SFltb_val x y :
  valid_binary x = true -> valid_binary y = true ->
  x <> S754_nan -> y <> S754_nan ->
  SFltb x y = (SFval x <? SFval y).
Proof.
  intros Vx Vy Nx Ny. unfold SFltb, Z.ltb.
  rewrite SFcompare_val by assumption. reflexivity.
Qed.

(** The sign of a difference is the order of its operands: a difference of
    two distinct finite values never rounds to zero. *)
Lemma SFsub_pos x y :
  valid_binary x = true -> valid_binary y = true ->
  x <> S754_nan -> y <> S754_nan ->
  SFltb (S754_zero false) (SFsub prec emax x y) = SFltb y x.
Proof.
  intros Vx Vy Nx Ny.
  destruct x as [sx|sx| |sx mx ex]; [| |congruence|];
    destruct y as [sy|sy| |sy my ey]; try congruence;
    try (destruct sx; destruct sy; reflexivity);
    try (destruct sx; reflexivity);
    try (destruct sy; reflexivity).
  rewrite (SFltb_val _ _ Vy Vx) by congruence.
  cbn [valid_binary] in Vx, Vy.
  pose proof (bounded_inv _ _ Vx) as (Hex & _ & _).
  pose proof (bounded_inv _ _ Vy) as (Hey & _ & _).
  unfold SFsub. stdz. cbn [SFval].
  remember (Z.min ex ey) as ez eqn:Ez.
  rewrite !shl_align_val by lia.
  remember (cond_Zopp sx (Zpos mx * 2 ^ (ex - ez))
            - cond_Zopp sy (Zpos my * 2 ^ (ey - ez))) as D eqn:ED.
  assert (HP : 0 < 2 ^ (ez + 1074)) by (apply Z.pow_pos_nonneg; lia).
  assert (Hrel : cond_Zopp sx (Zpos mx * 2 ^ (ex + 1074))
                 - cond_Zopp sy (Zpos my * 2 ^ (ey + 1074))
                 = D * 2 ^ (ez + 1074)).
  { subst D. rewrite Z.mul_sub_distr_r, !cond_Zopp_mul.
    rewrite <- !Z.mul_assoc, <- !Z.pow_add_r by lia.
    replace (ex - ez + (ez + 1074)) with (ex + 1074) by lia.
    replace (ey - ez + (ez + 1074)) with (ey + 1074) by lia. reflexivity. }
  destruct D as [|p|p]; unfold binary_normalize.
  - cbn. symmetry. apply Z.ltb_ge. lia.
  - rewrite (SFltb_zero_signed false) by (apply binary_round_signed; lia).
    cbn. symmetry. apply Z.ltb_lt. nia.
  - rewrite (SFltb_zero_signed true) by (apply binary_round_signed; lia).
    cbn. symmetry. apply Z.ltb_ge. nia.
Qed.

(** ** Numbers: the primitive operations *)

Lemma ltb_rank x y :
  is_nan x = false -> is_nan y = false -> (x <? y)%float = (rank x <? rank y).
Proof.
  intros Hx Hy. rewrite FloatAxioms.ltb_spec. apply SFltb_val;
    auto using Prim2SF_valid, is_nan_false_spec.
Qed.

Lemma sub_pos_ltb x y :
  is_nan x = false -> is_nan y = false ->
  (0 <? x - y)%float = (y <? x)%float.
Proof.
  intros Hx Hy. rewrite !FloatAxioms.ltb_spec, FloatAxioms.sub_spec.
  change (Prim2SF 0) with (S754_zero false).
  apply SFsub_pos; auto using Prim2SF_valid, is_nan_false_spec.
Qed.

(** ** Numbers: sums of integers are exact *)

Lemma digits2_pos_iter_xO m k :
  Zpos (digits2_pos (Pos.iter xO m k)) = Zpos (digits2_pos m) + Zpos k.
Proof.
  induction k as [|k IH] using Pos.peano_ind.
  - cbn. stdz. lia.
  - rewrite Pos.iter_succ. cbn [digits2_pos]. stdz.
    rewrite Pos2Z.inj_succ, IH. lia.
Qed.

Lemma canonical_bounded p :
  Zpos p < 2 ^ 53 ->
  bounded prec emax (fst (canonical p)) (snd (canonical p)) = true /\
  Zpos (fst (canonical p)) * 2 ^ (snd (canonical p) + 1074)
  = Zpos p * 2 ^ 1074.
Proof.
  intros Hp. pose proof (digits2_pos_bounds p) as [Hlo Hhi].
  assert (Hd : Zpos (digits2_pos p) <= 53).
  { destruct (Z.le_gt_cases (Zpos (digits2_pos p)) 53) as [H|H]; [exact H|].
    exfalso. assert (2 ^ 53 <= 2 ^ (Zpos (digits2_pos p) - 1))
      by (apply Z.pow_le_mono_r; lia). lia. }
  unfold canonical, bounded, canonical_mantissa. rewrite fexp_eq. stdz.
  destruct (53 - Zpos (digits2_pos p)) as [|k|k] eqn:Ek; cbn [fst snd].
  - split.
    + apply andb_true_iff. split; [apply Z.eqb_eq; lia|apply Z.leb_le].
      change (emax - prec) with 971. lia.
    + reflexivity.
  - split.
    + rewrite digits2_pos_iter_xO. apply andb_true_iff.
      split; [apply Z.eqb_eq; lia|apply Z.leb_le].
      change (emax - prec) with 971. lia.
    + rewrite Pos_iter_xO, <- Z.mul_assoc, <- Z.pow_add_r by lia.
      f_equal. f_equal. lia.
  - lia.
Qed.

Lemma same_magnitude m1 a m2 b :
  0 <= a -> 0 <= b ->
  Zpos m1 * 2 ^ a = Zpos m2 * 2 ^ b ->
  Zpos (digits2_pos m1) + a = Zpos (digits2_pos m2) + b.
Proof.
  intros Ha Hb E.
  pose proof (digits2_pos_bounds m1) as [L1 U1].
  pose proof (digits2_pos_bounds m2) as [L2 U2].
  remember (Zpos (digits2_pos m1)) as d1. remember (Zpos (digits2_pos m2)) as d2.
  assert (Hd1 : 0 < d1) by lia. assert (Hd2 : 0 < d2) by lia.
  assert (Pa : 0 < 2 ^ a) by (apply Z.pow_pos_nonneg; lia).
  assert (Pb : 0 < 2 ^ b) by (apply Z.pow_pos_nonneg; lia).
  assert (V1 : 2 ^ (d1 - 1 + a) <= Zpos m1 * 2 ^ a < 2 ^ (d1 + a))
    by (rewrite !Z.pow_add_r by lia; nia).
  assert (V2 : 2 ^ (d2 - 1 + b) <= Zpos m2 * 2 ^ b < 2 ^ (d2 + b))
    by (rewrite !Z.pow_add_r by lia; nia).
  destruct (Z.lt_trichotomy (d1 + a) (d2 + b)) as [H|[H|H]]; [|exact H|].
  - assert (2 ^ (d1 + a) <= 2 ^ (d2 - 1 + b)) by (apply Z.pow_le_mono_r; lia).
    lia.
  - assert (2 ^ (d2 + b) <= 2 ^ (d1 - 1 + a)) by (apply Z.pow_le_mono_r; lia).
    lia.
Qed.

Lemma shr_canonical m e :
  bounded prec emax m e = true ->
  shr {| shr_m := Zpos m; shr_r := false; shr_s := false |} e
      (fexp prec emax (Zdigits2 (Zpos m) + e) - e)
  = ({| shr_m := Zpos m; shr_r := false; shr_s := false |}, e).
Proof.
  unfold bounded, canonical_mantissa. intros H.
  apply andb_true_iff in H as [Hc _]. apply Z.eqb_eq in Hc.
  cbn [Zdigits2]. stdz. rewrite Hc, Z.sub_diag. reflexivity.
Qed.

Lemma shr_fexp_canonical m e :
  bounded prec emax m e = true ->
  shr_fexp prec emax (Zpos m) e loc_Exact
  = ({| shr_m := Zpos m; shr_r := false; shr_s := false |}, e).
Proof.
  intros H. unfold shr_fexp. cbn [shr_record_of_loc]. stdz.
  now apply shr_canonical.
Qed.

Lemma binary_round_aux_canonical s m e :
  bounded prec emax m e = true ->
  binary_round_aux prec emax s (Zpos m) e loc_Exact = S754_finite s m e.
Proof.
  intros H. unfold binary_round_aux. rewrite (shr_fexp_canonical m e H).
  cbn [shr_m loc_of_shr_record round_nearest_even].
  rewrite (shr_fexp_canonical m e H). cbn [shr_m].
  unfold bounded in H. apply andb_true_iff in H as [_ He]. now rewrite He.
Qed.

Lemma iter_shr_exact q : forall m,
  SpecFloat.iter_pos shr_1 q
    {| shr_m := Zpos (Pos.iter xO m q); shr_r := false; shr_s := false |}
  = {| shr_m := Zpos m; shr_r := false; shr_s := false |}.
Proof.
  induction q as [q IH|q IH|]; intros m; cbn [SpecFloat.iter_pos Pos.iter].
  - cbn [shr_1 orb]. now rewrite IH, IH.
  - now rewrite IH, IH.
  - reflexivity.
Qed.

(** Rounding a value that is a binary64 number gives that number. *)
Lemma binary_round_representable M e m' e' :
  -1074 <= e ->
  bounded prec emax m' e' = true ->
  Zpos m' * 2 ^ (e' + 1074) = Zpos M * 2 ^ (e + 1074) ->
  binary_round prec emax false M e = S754_finite false m' e'.
Proof.
  intros He Hb Hv.
  pose proof (bounded_inv _ _ Hb) as (He' & _ & _).
  pose proof (same_magnitude m' (e' + 1074) M (e + 1074)
                ltac:(lia) ltac:(lia) Hv) as Hmag.
  assert (Hf : fexp prec emax (Zpos (digits2_pos M) + e) = e').
  { replace (Zpos (digits2_pos M) + e) with (Zpos (digits2_pos m') + e') by lia.
    unfold bounded, canonical_mantissa in Hb.
    apply andb_true_iff in Hb as [Hc _]. now apply Z.eqb_eq in Hc. }
  unfold binary_round. rewrite Hf. unfold shl_align. stdz.
  destruct (e' - e) as [|q|q] eqn:Eq.
  - assert (Ee : e = e') by lia. clear Hf Eq Hmag. subst e.
    assert (HM : M = m').
    { apply Pos2Z.inj. apply Z.mul_cancel_r in Hv; [now symmetry|].
      apply Z.pow_nonzero; lia. }
    rewrite HM. now apply binary_round_aux_canonical.
  - (* the mantissa ends in [q] zeros, shifted out exactly *)
    assert (HM : M = Pos.iter xO m' q).
    { apply Pos2Z.inj. rewrite Pos_iter_xO.
      assert (Hv2 : Zpos M * 2 ^ (e + 1074)
                    = Zpos m' * 2 ^ Zpos q * 2 ^ (e + 1074)).
      { rewrite <- Hv. replace (e' + 1074) with (Zpos q + (e + 1074)) by lia.
        rewrite Z.pow_add_r by lia. ring. }
      apply Z.mul_cancel_r in Hv2; [exact Hv2|]. apply Z.pow_nonzero; lia. }
    unfold binary_round_aux, shr_fexp. cbn [Zdigits2]. rewrite Hf.
    stdz. rewrite Eq. cbn [shr shr_record_of_loc]. rewrite HM, iter_shr_exact.
    cbn [shr_m loc_of_shr_record round_nearest_even].
    replace (e + Zpos q) with e' by lia.
    rewrite (shr_canonical m' e' Hb). cbn [shr_m].
    unfold bounded in Hb. apply andb_true_iff in Hb as [_ Hle]. now rewrite Hle.
  - assert (HM : m' = Pos.iter xO M q).
    { apply Pos2Z.inj. rewrite Pos_iter_xO.
      assert (Hv2 : Zpos m' * 2 ^ (e' + 1074)
                    = Zpos M * 2 ^ Zpos q * 2 ^ (e' + 1074)).
      { rewrite Hv. replace (e + 1074) with (Zpos q + (e' + 1074)) by lia.
        rewrite Z.pow_add_r by lia. ring. }
      apply Z.mul_cancel_r in Hv2; [exact Hv2|]. apply Z.pow_nonzero; lia. }
    rewrite <- HM. now apply binary_round_aux_canonical.
Qed.

Lemma Prim2SF_ofZ_pos p :
  Zpos p < 2 ^ 53 ->
  Prim2SF (ofZ (Zpos p))
  = S754_finite false (fst (canonical p)) (snd (canonical p)).
Proof.
  intros Hp. destruct (canonical_bounded p Hp) as [Hb Hv].
  unfold ofZ, binary_normalize.
  rewrite (binary_round_representable p 0 _ _ ltac:(lia) Hb Hv).
  now apply Prim2SF_SF2Prim.
Qed.

Lemma SFadd_exact mx ex my ey mz ez :
  bounded prec emax mx ex = true ->
  bounded prec emax my ey = true ->
  bounded prec emax mz ez = true ->
  Zpos mz * 2 ^ (ez + 1074)
  = Zpos mx * 2 ^ (ex + 1074) + Zpos my * 2 ^ (ey + 1074) ->
  SFadd prec emax (S754_finite false mx ex) (S754_finite false my ey)
  = S754_finite false mz ez.
Proof.
  intros Hx Hy Hz Hv.
  pose proof (bounded_inv _ _ Hx) as (Hex & _ & _).
  pose proof (bounded_inv _ _ Hy) as (Hey & _ & _).
  unfold SFadd. stdz. cbn [cond_Zopp].
  remember (Z.min ex ey) as e0 eqn:E0.
  assert (H1 := shl_align_val mx ex e0 ltac:(lia)).
  assert (H2 := shl_align_val my ey e0 ltac:(lia)).
  rewrite <- Pos2Z.inj_add. unfold binary_normalize.
  apply binary_round_representable; [lia|exact Hz|].
  rewrite Hv, Pos2Z.inj_add, H1, H2, Z.mul_add_distr_r.
  rewrite <- !Z.mul_assoc, <- !Z.pow_add_r by lia.
  f_equal; f_equal; f_equal; lia.
Qed.

(** Adding two natural numbers whose sum stays below 2^53 is exact. *)
Lemma add_ofZ a b :
  0 <= a -> 0 <= b -> a + b < 2 ^ 53 ->
  (ofZ a + ofZ b)%float = ofZ (a + b).
Proof.
  intros Ha Hb Hab. apply Prim2SF_inj. rewrite FloatAxioms.add_spec.
  destruct a as [|p|p]; [|destruct b as [|q|q]|]; try lia.
  - change (Prim2SF (ofZ 0)) with (S754_zero false). cbn [Z.add].
    destruct b as [|q|q]; [reflexivity| |lia].
    change (0 + Zpos q) with (Zpos q) in *.
    rewrite !Prim2SF_ofZ_pos by lia. reflexivity.
  - change (Prim2SF (ofZ 0)) with (S754_zero false). rewrite Z.add_0_r in *.
    rewrite !Prim2SF_ofZ_pos by lia. reflexivity.
  - rewrite <- Pos2Z.inj_add in *.
    rewrite !Prim2SF_ofZ_pos by lia.
    destruct (canonical_bounded p ltac:(lia)) as [Bp Vp].
    destruct (canonical_bounded q ltac:(lia)) as [Bq Vq].
    destruct (canonical_bounded (p + q) Hab) as [Bs Vs].
    apply SFadd_exact; try assumption.
    rewrite Vs, Vp, Vq, Pos2Z.inj_add. ring.
Qed.

Lemma Zsum_nonneg zs : Forall (fun z => 0 <= z) zs -> 0 <= Zsum zs.
Proof. induction 1; cbn [Zsum]; lia. Qed.

Lemma fold_add_ofZ zs : forall acc,
  0 <= acc -> Forall (fun z => 0 <= z) zs -> acc + Zsum zs < 2 ^ 53 ->
  fold_left add (List.map ofZ zs) (ofZ acc) = ofZ (acc + Zsum zs).
Proof.
  induction zs as [|z zs IH]; intros acc Hacc Hz Hs;
    cbn [Zsum List.map fold_left] in *.
  - now rewrite Z.add_0_r.
  - inversion Hz as [|? ? Hz0 Hzs]; subst.
    pose proof (Zsum_nonneg zs Hzs).
    rewrite add_ofZ by lia. rewrite IH by (assumption || lia).
    f_equal. lia.
Qed.

Lemma total_ofZ zs :
  Forall (fun z => 0 <= z) zs -> Zsum zs < 2 ^ 53 ->
  total (List.map ofZ zs) = ofZ (Zsum zs).
Proof.
  intros Hz Hs. unfold total. change zero with (ofZ 0).
  now rewrite fold_add_ofZ by (assumption || lia).
Qed.

(** ** Numbers: equality and the default *)

Lemma eqb_rank x y :
  is_nan x = false -> is_nan y = false -> (x =? y)%float = (rank x =? rank y).
Proof.
  intros Hx Hy. rewrite FloatAxioms.eqb_spec. unfold SFeqb.
  rewrite SFcompare_val by auto using Prim2SF_valid, is_nan_false_spec.
  fold (rank x) (rank y).
  destruct (Z.eqb_spec (rank x) (rank y)) as [E|E].
  - rewrite E, Z.compare_refl. reflexivity.
  - destruct (Z.compare_spec (rank x) (rank y));
      [contradiction|reflexivity|reflexivity].
Qed.

Lemma orZero_not_nan x : is_nan (orZero x) = false.
Proof.
  unfold orZero, truthyNumber. destruct (is_nan x) eqn:En; cbn [orb negb].
  - reflexivity.
  - destruct (is_zero x); cbn [negb]; [reflexivity|exact En].
Qed.

(** ** Arrays: map with index, and the stable sort *)

Lemma mapFrom_app {A B} (f : A -> nat -> B) l1 l2 i :
  mapFrom f i (l1 ++ l2) = mapFrom f i l1 ++ mapFrom f (i + length l1) l2.
Proof.
  revert i. induction l1 as [|x l1 IH]; intros i; cbn.
  - now rewrite Nat.add_0_r.
  - rewrite IH. do 3 f_equal. lia.
Qed.

Lemma mapFrom_In {A B} (f : A -> nat -> B) l i y :
  In y (mapFrom f i l) -> exists x k, nth_error l k = Some x /\ y = f x (i + k)%nat.
Proof.
  revert i. induction l as [|x l IH]; intros i; cbn; [tauto|].
  intros [<-|H].
  - exists x, 0%nat. split; [reflexivity|]. now rewrite Nat.add_0_r.
  - apply IH in H as (x' & k & Hk & ->). exists x', (S k). split; [exact Hk|].
    f_equal. lia.
Qed.

Section StableSort.
Context {A : Type}.
Variable cmp : A -> A -> float.
(** The sort key and the original position of an element. *)
Variable key : A -> Z.
Variable pos : A -> nat.
Variable good : A -> Prop.
Hypothesis cmp_key :
  forall x y, good x -> good y -> (0 <? cmp x y)%float = (key x <? key y).

Lemma insertSorted_perm x l : Permutation (insertSorted cmp x l) (x :: l).
Proof.
  induction l as [|y l IH]; cbn; [reflexivity|].
  destruct (0 <? cmp x y)%float; [|reflexivity].
  rewrite IH. apply perm_swap.
Qed.

Lemma Array_sort_perm l : Permutation (Array_sort cmp l) l.
Proof.
  induction l as [|x l IH]; cbn; [reflexivity|].
  fold (Array_sort cmp l). rewrite insertSorted_perm. now constructor.
Qed.

Lemma insertSorted_sorted x l :
  good x -> Forall good l ->
  Forall (fun y => (pos x < pos y)%nat) l ->
  StronglySorted (before key pos) l ->
  StronglySorted (before key pos) (insertSorted cmp x l).
Proof.
  intros Gx. induction l as [|y l IH]; intros Gl Hpos Hs; cbn.
  - repeat constructor.
  - inversion Gl as [|? ? Gy Gl']; subst.
    inversion Hpos as [|? ? Py Pl]; subst.
    inversion Hs as [|? ? Hs' Hy]; subst.
    rewrite cmp_key by assumption.
    destruct (key x <? key y) eqn:E.
    + apply Z.ltb_lt in E. constructor; [now apply IH|].
      rewrite insertSorted_perm. constructor; [left; exact E|exact Hy].
    + apply Z.ltb_ge in E. constructor; [exact Hs|].
      constructor.
      * unfold before. lia.
      * rewrite Forall_forall in Hy, Pl |- *. intros z Hz.
        specialize (Hy z Hz). specialize (Pl z Hz). unfold before in *. lia.
Qed.

Lemma Array_sort_sorted l :
  Forall good l ->
  StronglySorted (fun x y => (pos x < pos y)%nat) l ->
  StronglySorted (before key pos) (Array_sort cmp l).
Proof.
  induction l as [|x l IH]; intros Gl Hs; cbn; [constructor|].
  fold (Array_sort cmp l).
  inversion Gl as [|? ? Gx Gl']; subst.
  inversion Hs as [|? ? Hs' Hx]; subst.
  apply insertSorted_sorted; auto.
  - now rewrite Array_sort_perm.
  - now rewrite Array_sort_perm.
Qed.
End StableSort.

(** ** URL extraction: the matcher and the language of the RegExp *)

Lemma takeWhile_dropWhile {A} (p : A -> bool) l :
  takeWhile p l ++ dropWhile p l = l.
Proof.
  induction l as [|x l IH]; cbn; [reflexivity|].
  destruct (p x); cbn; [now rewrite IH|reflexivity].
Qed.

Lemma takeWhile_Forall {A} (p : A -> bool) l :
  Forall (fun c => p c = true) (takeWhile p l).
Proof.
  induction l as [|x l IH]; cbn; [constructor|].
  destruct (p x) eqn:E; [constructor; assumption|constructor].
Qed.

Lemma takeWhile_stop {A} (p : A -> bool) a c r :
  Forall (fun x => p x = true) a -> p c = false ->
  takeWhile p (a ++ c :: r) = a.
Proof.
  intros Ha Hc. induction Ha as [|x a Hx _ IH]; cbn.
  - now rewrite Hc.
  - now rewrite Hx, IH.
Qed.

Lemma dropWhile_stop {A} (p : A -> bool) a c r :
  Forall (fun x => p x = true) a -> p c = false ->
  dropWhile p (a ++ c :: r) = c :: r.
Proof.
  intros Ha Hc. induction Ha as [|x a Hx _ IH]; cbn.
  - now rewrite Hc.
  - now rewrite Hx, IH.
Qed.

Lemma notQuote_true c : notQuote c = true <-> c <> dquote.
Proof.
  unfold notQuote. rewrite negb_true_iff. apply N.eqb_neq.
Qed.

Lemma notQuote_Forall u :
  Forall (fun c => notQuote c = true) u <-> ~ In dquote u.
Proof.
  rewrite List.Forall_forall. split.
  - intros H Hin. apply H in Hin. now apply notQuote_true in Hin.
  - intros H c Hc. apply notQuote_true. intros ->. contradiction.
Qed.

Lemma matchLiteral_sound pat : forall s r,
  matchLiteral pat s = Some r ->
  exists tok, s = tok ++ r /\
              List.map canonicalize tok = List.map canonicalize pat.
Proof.
  induction pat as [|p pat IH]; intros s r; cbn.
  - intros [= ->]. now exists [].
  - destruct s as [|c s]; [discriminate|].
    destruct (N.eqb_spec (canonicalize c) (canonicalize p)) as [E|E];
      [|discriminate].
    intros H. apply IH in H as (tok & -> & Ht).
    exists (c :: tok). cbn. now rewrite E, Ht.
Qed.

Lemma matchLiteral_complete pat : forall tok r,
  List.map canonicalize tok = List.map canonicalize pat ->
  matchLiteral pat (tok ++ r) = Some r.
Proof.
  induction pat as [|p pat IH]; intros tok r; cbn.
  - destruct tok; [reflexivity|discriminate].
  - destruct tok as [|c tok]; [discriminate|]. cbn.
    intros [= E Ht]. rewrite E, N.eqb_refl. now apply IH.
Qed.

Lemma token_canonical :
  List.map canonicalize (str "=HYPERLINK(") = str "=HYPERLINK(".
Proof. reflexivity. Qed.

Lemma hyperlinkAt_sound s u : hyperlinkAt s = Some u -> FormulaAt s u.
Proof.
  unfold hyperlinkAt.
  destruct (matchLiteral _ s) as [r|] eqn:Em; [|discriminate].
  apply matchLiteral_sound in Em as (tok & -> & Ht).
  rewrite token_canonical in Ht.
  pose proof (takeWhile_dropWhile isWhiteSpace r) as Hr.
  pose proof (takeWhile_Forall isWhiteSpace r) as Hws.
  destruct (dropWhile isWhiteSpace r) as [|c r'] eqn:Ed; [discriminate|].
  destruct (N.eqb_spec c dquote) as [->|]; [|discriminate].
  pose proof (takeWhile_dropWhile notQuote r') as Hr'.
  pose proof (takeWhile_Forall notQuote r') as Hu.
  destruct (takeWhile notQuote r') as [|u0 u1] eqn:Eu; [discriminate|].
  destruct (dropWhile notQuote r') as [|d r''] eqn:Ed'; [discriminate|].
  destruct (N.eqb_spec d dquote) as [->|]; [|discriminate].
  intros [= <-].
  exists tok, (takeWhile isWhiteSpace r), r''. repeat split.
  - now rewrite Hr', Hr.
  - exact Ht.
  - exact Hws.
  - discriminate.
  - now apply notQuote_Forall.
Qed.

Lemma hyperlinkAt_complete s u : FormulaAt s u -> hyperlinkAt s = Some u.
Proof.
  intros (tok & ws & rest & -> & Ht & Hws & Hne & Hq).
  unfold hyperlinkAt.
  rewrite matchLiteral_complete by now rewrite token_canonical.
  rewrite dropWhile_stop by (assumption || reflexivity).
  rewrite N.eqb_refl.
  apply notQuote_Forall in Hq.
  rewrite takeWhile_stop, dropWhile_stop by (assumption || reflexivity).
  rewrite N.eqb_refl. destruct u; [contradiction|reflexivity].
Qed.

Lemma hyperlinkAt_spec s u : hyperlinkAt s = Some u <-> FormulaAt s u.
Proof. split; [apply hyperlinkAt_sound|apply hyperlinkAt_complete]. Qed.

Lemma hyperlinkMatch_unfold s :
  hyperlinkMatch s =
  match hyperlinkAt s with
  | Some u => Some u
  | None => match s with [] => None | _ :: t => hyperlinkMatch t end
  end.
Proof. destruct s; reflexivity. Qed.

(** The match is the leftmost one. *)
Lemma hyperlinkMatch_leftmost pre : forall post u,
  NoFormulaBefore (length pre) (pre ++ post) ->
  FormulaAt post u ->
  hyperlinkMatch (pre ++ post) = Some u.
Proof.
  induction pre as [|c pre IH]; intros post u Hno Hat.
  - cbn [app]. rewrite hyperlinkMatch_unfold.
    now rewrite (hyperlinkAt_complete _ _ Hat).
  - rewrite hyperlinkMatch_unfold.
    destruct (hyperlinkAt ((c :: pre) ++ post)) as [u'|] eqn:E.
    + exfalso. apply hyperlinkAt_sound in E.
      apply (Hno 0%nat u'); [cbn; lia|exact E].
    + cbn [app]. apply IH; [|exact Hat].
      intros k u' Hk. apply (Hno (S k) u'). cbn. lia.
Qed.

Lemma hyperlinkMatch_sound s : forall u,
  hyperlinkMatch s = Some u -> exists k, FormulaAt (skipn k s) u.
Proof.
  induction s as [|c s IH]; intros u; rewrite hyperlinkMatch_unfold.
  - destruct (hyperlinkAt []) eqn:E; [|discriminate].
    intros [= <-]. exists 0%nat. now apply hyperlinkAt_sound.
  - destruct (hyperlinkAt (c :: s)) eqn:E.
    + intros [= <-]. exists 0%nat. now apply hyperlinkAt_sound.
    + intros H. apply IH in H as [k Hk]. now exists (S k).
Qed.

Lemma hyperlinkMatch_none s : NoFormula s -> hyperlinkMatch s = None.
Proof.
  intros Hno. destruct (hyperlinkMatch s) as [u|] eqn:E; [|reflexivity].
  apply hyperlinkMatch_sound in E as [k Hk]. now apply Hno in Hk.
Qed.

(** Both conditions are decided by running the matcher. *)
Lemma NoFormulaBefore_check n s :
  forallb (fun k => match hyperlinkAt (skipn k s) with None => true | Some _ => false end)
          (seq 0 n) = true ->
  NoFormulaBefore n s.
Proof.
  intros H k u Hk Hat. rewrite List.forallb_forall in H.
  assert (Hin : In k (seq 0 n)) by (apply in_seq; lia).
  specialize (H k Hin). rewrite (hyperlinkAt_complete _ _ Hat) in H.
  discriminate.
Qed.

Lemma NoFormula_check s : hyperlinkMatch s = None -> NoFormula s.
Proof.
  intros H k. revert s H. induction k as [|k IH]; intros s H u Hat.
  - change (skipn 0 s) with s in Hat. rewrite hyperlinkMatch_unfold in H.
    now rewrite (hyperlinkAt_complete _ _ Hat) in H.
  - destruct s as [|c s].
    + change (skipn (S k) []) with (@nil N) in Hat.
      rewrite hyperlinkMatch_unfold in H.
      now rewrite (hyperlinkAt_complete _ _ Hat) in H.
    + change (skipn (S k) (c :: s)) with (skipn k s) in Hat.
      rewrite hyperlinkMatch_unfold in H.
      destruct (hyperlinkAt (c :: s)); [discriminate|].
      exact (IH s H u Hat).
Qed.

(** ** URL extraction: the claims *)

Lemma extractURL_of_match s u :
  hyperlinkMatch s = Some u -> extractURL (VString s) = u.
Proof.
  intros H. assert (Hne : u <> []).
  { apply hyperlinkMatch_sound in H as [k Hk].
    destruct Hk as (_ & _ & _ & _ & _ & _ & Hu & _). exact Hu. }
  destruct s as [|c s]; [discriminate H|].
  unfold extractURL. rewrite H. destruct u; [contradiction|reflexivity].
Qed.

Lemma extractURL_no_match s :
  hyperlinkMatch s = None ->
  extractURL (VString s) =
  if startsWith s (str "http://") || startsWith s (str "https://")
  then s else str "#".
Proof.
  intros H. destruct s as [|c s]; [reflexivity|].
  unfold extractURL. now rewrite H.
Qed.

(** C2 (as amended): for a cell that reads [=HYPERLINK(], in any letter case,
    then any white space, then a non-empty quoted text, [extractURL] returns
    exactly the quoted text, whatever follows the closing quote.  The white
    space tolerated is the one between the opening parenthesis and the
    opening quote. *)
Theorem extractURL_formula tok ws u rest :
  List.map canonicalize tok = str "=HYPERLINK(" ->
  Forall (fun c => isWhiteSpace c = true) ws ->
  u <> [] ->
  ~ In dquote u ->
  extractURL (VString (tok ++ ws ++ dquote :: u ++ dquote :: rest)) = u.
Proof.
  intros Ht Hws Hne Hq. apply extractURL_of_match.
  apply (hyperlinkMatch_leftmost []).
  - intros k u' Hk. cbn in Hk. lia.
  - now exists tok, ws, rest.
Qed.

Lemma not_In_check (c : N) (l : list N) :
  forallb (fun x => negb (x =? c)%N) l = true -> ~ In c l.
Proof.
  rewrite List.forallb_forall. intros H Hin. apply H in Hin.
  now rewrite N.eqb_refl in Hin.
Qed.

Lemma extractURL_formula_witness :
  extractURL (VString (formulaText [] (str "https://example.com/x")))
  = str "https://example.com/x".
Proof.
  apply (extractURL_formula (str "=HYPERLINK(") [] (str "https://example.com/x")).
  - reflexivity.
  - constructor.
  - discriminate.
  - apply not_In_check. reflexivity.
Defined.

(** C2, as stated, fails: white space between the function name and the
    opening parenthesis is not tolerated. *)
Lemma extractURL_space_before_parenthesis :
  extractURL
    (VString (str "=HYPERLINK (" ++ dquote :: str "https://example.com/x"
              ++ dquote :: str ")"))
  = str "#".
Proof. reflexivity. Qed.

(** C10 (as amended): the pattern is searched anywhere in the cell and comes
    before the plain-URL rule: whatever precedes the formula, even a text that
    begins with [http://] or [https://], the result is the quoted text of
    the formula, provided the pattern matches nowhere before it: when there
    are several formulas the result is the quoted text of the leftmost. *)
Theorem extractURL_formula_anywhere pre tok ws u rest :
  List.map canonicalize tok = str "=HYPERLINK(" ->
  Forall (fun c => isWhiteSpace c = true) ws ->
  u <> [] ->
  ~ In dquote u ->
  NoFormulaBefore (length pre)
    (pre ++ tok ++ ws ++ dquote :: u ++ dquote :: rest) ->
  extractURL (VString (pre ++ tok ++ ws ++ dquote :: u ++ dquote :: rest)) = u.
Proof.
  intros Ht Hws Hne Hq Hno. apply extractURL_of_match.
  apply hyperlinkMatch_leftmost; [exact Hno|].
  now exists tok, ws, rest.
Qed.

Lemma extractURL_formula_anywhere_witness :
  startsWith (formulaText (str "https://old.example/a?b=1 ")
                (str "https://example.com/x")) (str "https://") = true /\
  extractURL (VString (formulaText (str "https://old.example/a?b=1 ")
                         (str "https://example.com/x")))
  = str "https://example.com/x".
Proof.
  split; [reflexivity|].
  apply (extractURL_formula_anywhere (str "https://old.example/a?b=1 ")
           (str "=HYPERLINK(") [] (str "https://example.com/x")).
  - reflexivity.
  - constructor.
  - discriminate.
  - apply not_In_check. reflexivity.
  - apply NoFormulaBefore_check. reflexivity.
Defined.

(** C10, as stated, fails: a cell with two formulas contains the second one,
    and the result is the quoted text of the first. *)
Lemma extractURL_second_formula :
  formulaText [] (str "https://a.example/1")
    ++ formulaText (str " ") (str "https://b.example/2")
  = (formulaText [] (str "https://a.example/1") ++ str " ")
    ++ str "=HYPERLINK(" ++ dquote :: str "https://b.example/2"
    ++ dquote :: (str "," ++ dquote :: str "label" ++ dquote :: str ")") /\
  extractURL
    (VString (formulaText [] (str "https://a.example/1")
              ++ formulaText (str " ") (str "https://b.example/2")))
  = str "https://a.example/1" /\
  str "https://a.example/1" <> str "https://b.example/2".
Proof. split; [reflexivity|]. split; [reflexivity|discriminate]. Qed.

(** C9: a cell that is not a text, or a text with no [http://] or [https://]
    prefix and no match of the formula pattern anywhere (empty, malformed or
    plain label text), gives the placeholder [#]. *)
Theorem extractURL_placeholder v :
  (forall s, v = VString s ->
     startsWith s (str "http://") = false /\
     startsWith s (str "https://") = false /\
     NoFormula s) ->
  extractURL v = str "#".
Proof.
  intros H. destruct v as [|b|s|x]; try reflexivity.
  destruct (H s eq_refl) as (H1 & H2 & H3).
  rewrite extractURL_no_match by now apply hyperlinkMatch_none.
  now rewrite H1, H2.
Qed.

Lemma extractURL_placeholder_witness :
  extractURL (VString (str "View Listing")) = str "#".
Proof.
  apply extractURL_placeholder. intros s [= <-].
  split; [reflexivity|]. split; [reflexivity|].
  apply NoFormula_check. reflexivity.
Defined.

(** ** Normalisation and retention *)

Lemma valid_normalize row index :
  valid (normalize row index) =
  (0 <? parseFloat (cell row "Price"))%float
  && negb (isNaN (parseFloat (cell row "Latitude")))
  && negb (isNaN (parseFloat (cell row "Longitude"))).
Proof.
  unfold valid, normalize. cbn [price lat lng].
  now rewrite ltb_zero_orZero.
Qed.

Lemma normalize_In_map pre row post :
  In (normalize row (length pre)) (Array_map normalize (pre ++ row :: post)).
Proof.
  unfold Array_map. rewrite mapFrom_app. apply in_or_app. right. now left.
Qed.

(** C1: the record of a row is retained exactly when the parsed price is
    above zero and the parsed latitude and longitude are not NaN; no other
    cell of the row takes part. *)
Theorem retained_iff (pre : list RawRow) (row : RawRow) (post : list RawRow) :
  In (normalize row (length pre)) (loadExcelData (pre ++ row :: post)) <->
  (0 <? parseFloat (cell row "Price"))%float = true /\
  isNaN (parseFloat (cell row "Latitude")) = false /\
  isNaN (parseFloat (cell row "Longitude")) = false.
Proof.
  unfold loadExcelData. rewrite filter_In, valid_normalize.
  rewrite !andb_true_iff, !negb_true_iff. split.
  - intros [_ [[H1 H2] H3]]. auto.
  - intros (H1 & H2 & H3). split; [apply normalize_In_map|auto].
Qed.

(** The first scenario of the specification: of the two rows only the first
    is retained. *)
Lemma scenario_one_row_retained :
  List.map (fun p => (id p, price p, acres p, llmScore p, address p, type p))
    (loadExcelData scenarioRows)
  = [(0%nat, ofZ 300000, ofZ 10, ofZ 95, str "A", str "Land")].
Proof. reflexivity. Qed.

Lemma loadExcelData_In rows p :
  In p (loadExcelData rows) ->
  valid p = true /\
  exists row k, nth_error rows k = Some row /\ p = normalize row k.
Proof.
  unfold loadExcelData, Array_map. rewrite filter_In. intros [Hin Hv].
  split; [exact Hv|]. apply mapFrom_In in Hin as (row & k & Hk & ->).
  now exists row, k.
Qed.

Lemma mapFrom_ids rows : forall i,
  StronglySorted (fun a b => (id a < id b)%nat) (mapFrom normalize i rows) /\
  Forall (fun p => (i <= id p)%nat) (mapFrom normalize i rows).
Proof.
  induction rows as [|row rows IH]; intros i; cbn.
  - split; constructor.
  - destruct (IH (S i)) as [Hs Hf]. split.
    + constructor; [exact Hs|].
      eapply List.Forall_impl; [|exact Hf]. cbn. intros p Hp. lia.
    + constructor; [cbn; lia|].
      eapply List.Forall_impl; [|exact Hf]. cbn. intros p Hp. lia.
Qed.

Lemma StronglySorted_filter_keep {A} (R : A -> A -> Prop) (f : A -> bool) l :
  StronglySorted R l -> StronglySorted R (List.filter f l).
Proof.
  induction 1 as [|x l Hs IH Hx]; cbn; [constructor|].
  destruct (f x); [|exact IH]. constructor; [exact IH|].
  rewrite List.Forall_forall in Hx |- *. intros y Hy.
  apply filter_In in Hy as [Hy _]. now apply Hx.
Qed.

(** The retained records keep the order of the rows. *)
Lemma loadExcelData_ids rows :
  StronglySorted (fun a b => (id a < id b)%nat) (loadExcelData rows).
Proof.
  apply StronglySorted_filter_keep. apply (mapFrom_ids rows 0).
Qed.

Lemma loadExcelData_scores rows :
  Forall (fun p => is_nan (llmScore p) = false) (loadExcelData rows).
Proof.
  rewrite List.Forall_forall. intros p Hp.
  apply loadExcelData_In in Hp as (_ & row & k & _ & ->).
  apply orZero_not_nan.
Qed.

(** ** Ranking *)

Lemma StronglySorted_weaken {A} (R R' : A -> A -> Prop) (good : A -> Prop) l :
  (forall x y, good x -> good y -> R x y -> R' x y) ->
  Forall good l -> StronglySorted R l -> StronglySorted R' l.
Proof.
  intros HR Hg Hs. induction Hs as [|x l Hs IH Hx]; [constructor|].
  inversion Hg as [|? ? Gx Gl]; subst. constructor; [now apply IH|].
  rewrite List.Forall_forall in Hx, Gl |- *. intros y Hy.
  apply HR; auto.
Qed.

Lemma score_order x y :
  is_nan (llmScore x) = false -> is_nan (llmScore y) = false ->
  (0 <? llmScore y - llmScore x)%float
  = (rank (llmScore x) <? rank (llmScore y)).
Proof.
  intros Hx Hy. rewrite sub_pos_ltb by assumption. now apply ltb_rank.
Qed.

Lemma sorted_perm data : Permutation (sorted data) data.
Proof. apply Array_sort_perm. Qed.

Lemma sorted_ranked data :
  Forall (fun p => is_nan (llmScore p) = false) data ->
  StronglySorted (fun a b => (id a < id b)%nat) data ->
  StronglySorted ranksBefore (sorted data).
Proof.
  intros Hg Hs.
  apply (StronglySorted_weaken
           (before (fun p => rank (llmScore p)) id) ranksBefore
           (fun p => is_nan (llmScore p) = false)).
  - intros x y Hx Hy [H|[H1 H2]].
    + left. rewrite ltb_rank by assumption. now apply Z.ltb_lt.
    + right. split; [|exact H2].
      rewrite eqb_rank by assumption. now apply Z.eqb_eq.
  - now rewrite sorted_perm.
  - apply Array_sort_sorted
      with (good := fun p => is_nan (llmScore p) = false); auto.
    intros x y. apply score_order.
Qed.

Lemma sorted_nonempty data : data <> [] -> sorted data <> [].
Proof.
  intros Hne E. pose proof (sorted_perm data) as Hp. rewrite E in Hp.
  apply Permutation_nil in Hp. contradiction.
Qed.

Lemma mapFrom_fst {A} (f : A -> nat -> bool) l : forall i,
  List.map fst (mapFrom (fun x k => (x, f x k)) i l) = l.
Proof.
  induction l as [|x l IH]; intros i; cbn; [reflexivity|]. now rewrite IH.
Qed.

Lemma firstn_min {A} n (l : list A) :
  firstn (Nat.min n (length l)) l = firstn n l.
Proof.
  destruct (Nat.le_ge_cases n (length l)) as [H|H].
  - now rewrite Nat.min_l.
  - rewrite Nat.min_r by exact H. rewrite firstn_all.
    symmetry. now apply firstn_all2.
Qed.

(** What [renderAnalysis] writes for a collection that is not empty. *)
Lemma renderAnalysis_nonempty data page :
  data <> [] ->
  exists topPick rest,
    sorted data = topPick :: rest /\
    renderAnalysis data page =
    Normal
      {| el_avgPrice := [Lit (str "$"); Localized (Math_round (avgPrice data))];
         el_avgAcres := [Lit (str "$");
                         Localized (Math_round (avgPricePerAcre data));
                         Lit (str "/ac")];
         el_marketNarrative :=
           narrative topPick (avgPricePerAcre data) (Array_length data);
         el_topPicks :=
           Array_map (fun pick idx => (pick, (idx =? 0)%nat))
             (Array_slice0 3 (sorted data)) |}.
Proof.
  intros Hne. pose proof (sorted_nonempty data Hne) as Hs.
  unfold renderAnalysis.
  destruct data as [|p data]; [contradiction|]. cbn [length Nat.eqb].
  unfold renderAnalysisBody.
  destruct (sorted (p :: data)) as [|topPick rest] eqn:E; [contradiction|].
  now exists topPick, rest.
Qed.

(** C4: the ranked order of a retained collection is a permutation of it,
    by score descending and, among equal scores, by id ascending; the top
    picks are its first min(3, count) records.  Scores 70, 95, 95 with ids
    0, 1, 2 rank as ids 1, 2, 0. *)
Theorem ranking_by_score_then_id (rawJson : list RawRow) :
  let data := loadExcelData rawJson in
  Permutation (sorted data) data /\
  StronglySorted ranksBefore (sorted data) /\
  length (Array_slice0 3 (sorted data)) = Nat.min 3 (length data) /\
  (forall page, data <> [] ->
     exists page', renderAnalysis data page = Normal page' /\
       List.map fst (el_topPicks page')
       = firstn (Nat.min 3 (length data)) (sorted data)) /\
  (forall p0 p1 p2,
     id p0 = 0%nat -> id p1 = 1%nat -> id p2 = 2%nat ->
     llmScore p0 = ofZ 70 -> llmScore p1 = ofZ 95 -> llmScore p2 = ofZ 95 ->
     sorted [p0; p1; p2] = [p1; p2; p0]).
Proof.
  intros data.
  assert (Hlen : length (sorted data) = length data)
    by (apply Permutation_length, sorted_perm).
  split; [apply sorted_perm|].
  split; [apply sorted_ranked;
          [apply loadExcelData_scores|apply loadExcelData_ids]|].
  split; [unfold Array_slice0; rewrite length_firstn, Hlen; reflexivity|].
  split.
  - intros page Hne.
    destruct (renderAnalysis_nonempty data page Hne) as (t & r & _ & ->).
    eexists. split; [reflexivity|]. cbn [el_topPicks].
    unfold Array_map. rewrite mapFrom_fst. unfold Array_slice0.
    rewrite <- Hlen. now rewrite firstn_min.
  - intros p0 p1 p2 _ _ _ H0 H1 H2. unfold sorted, Array_sort.
    repeat (cbn [fold_right insertSorted]; rewrite ?H0, ?H1, ?H2;
            match goal with
            | |- context [if ?c then _ else _] =>
                let v := eval vm_compute in c in change c with v; cbv iota
            end).
    reflexivity.
Qed.

(** ** Statistics *)

Lemma fold_left_map_add {A} (f : A -> float) l : forall acc,
  fold_left (fun s p => (s + f p)%float) l acc
  = fold_left add (List.map f l) acc.
Proof.
  induction l as [|x l IH]; intros acc; cbn; [reflexivity|]. apply IH.
Qed.

Lemma avgPrice_mean data : avgPrice data = mean (List.map price data).
Proof.
  unfold avgPrice, mean, total, Array_reduce, Array_length.
  now rewrite fold_left_map_add, length_map.
Qed.

Lemma avgPricePerAcre_mean data :
  avgPricePerAcre data = mean (List.map perAcreOrZero data).
Proof.
  unfold avgPricePerAcre, mean, total, Array_reduce, Array_length.
  now rewrite (fold_left_map_add perAcreOrZero), length_map.
Qed.

(** C8: for a collection that is not empty the average price is the sum of
    the prices of all records divided by their count, and the page shows it
    rounded.  The sum is the binary64 one, taken in sequence order; for
    whole-number prices whose sum stays below 2^53 it is the exact sum, so
    that the average is the binary64 quotient of the exact sum by the
    count. *)
Theorem avgPrice_is_mean (data : list Property) (page : Sidebar) :
  data <> [] ->
  avgPrice data = mean (List.map price data) /\
  length (List.map price data) = length data /\
  (exists page',
     renderAnalysis data page = Normal page' /\
     el_avgPrice page'
     = [Lit (str "$"); Localized (Math_round (mean (List.map price data)))]) /\
  (forall zs,
     List.map price data = List.map ofZ zs ->
     Forall (fun z => 0 <= z) zs ->
     Zsum zs < 2 ^ 53 ->
     avgPrice data = (ofZ (Zsum zs) / ofZ (Z.of_nat (length data)))%float).
Proof.
  intros Hne. split; [apply avgPrice_mean|]. split; [apply length_map|].
  split.
  - destruct (renderAnalysis_nonempty data page Hne) as (t & r & _ & ->).
    eexists. split; [reflexivity|]. cbn [el_avgPrice].
    now rewrite avgPrice_mean.
  - intros zs Hzs Hpos Hsum. rewrite avgPrice_mean. unfold mean.
    rewrite length_map, Hzs. now rewrite total_ofZ.
Qed.

Lemma avgPrice_is_mean_witness :
  [sample 0 (ofZ 100000) (ofZ 0) (ofZ 70);
   sample 1 (ofZ 200000) (ofZ 10) (ofZ 95)] <> [] /\
  avgPrice [sample 0 (ofZ 100000) (ofZ 0) (ofZ 70);
            sample 1 (ofZ 200000) (ofZ 10) (ofZ 95)]
  = (ofZ (100000 + 200000) / ofZ 2)%float /\
  (ofZ (100000 + 200000) / ofZ 2)%float = ofZ 150000.
Proof.
  split; [discriminate|]. split; [|reflexivity].
  destruct (avgPrice_is_mean
              [sample 0 (ofZ 100000) (ofZ 0) (ofZ 70);
               sample 1 (ofZ 200000) (ofZ 10) (ofZ 95)]
              {| el_avgPrice := []; el_avgAcres := [];
                 el_marketNarrative := []; el_topPicks := [] |})
    as (_ & _ & _ & H); [discriminate|].
  apply (H [100000; 200000]).
  - reflexivity.
  - repeat constructor; lia.
  - reflexivity.
Defined.

(** C3: for a collection that is not empty the average price per acre is
    the sum, over all records, of price / acres when acres > 0 and of 0
    otherwise, divided by the count of all records; the page shows it
    rounded. *)
Theorem avgPricePerAcre_is_mean (data : list Property) (page : Sidebar) :
  data <> [] ->
  avgPricePerAcre data = mean (List.map perAcreOrZero data) /\
  length (List.map perAcreOrZero data) = length data /\
  exists page',
    renderAnalysis data page = Normal page' /\
    el_avgAcres page'
    = [Lit (str "$");
       Localized (Math_round (mean (List.map perAcreOrZero data)));
       Lit (str "/ac")].
Proof.
  intros Hne. split; [apply avgPricePerAcre_mean|].
  split; [apply length_map|].
  destruct (renderAnalysis_nonempty data page Hne) as (t & r & _ & ->).
  eexists. split; [reflexivity|]. cbn [el_avgAcres].
  now rewrite avgPricePerAcre_mean.
Qed.

(** The scenario of the specification: acreages 0 and 10, prices 100000 and
    200000. *)
Lemma avgPricePerAcre_is_mean_witness :
  [sample 0 (ofZ 100000) (ofZ 0) (ofZ 70);
   sample 1 (ofZ 200000) (ofZ 10) (ofZ 95)] <> [] /\
  avgPricePerAcre [sample 0 (ofZ 100000) (ofZ 0) (ofZ 70);
                   sample 1 (ofZ 200000) (ofZ 10) (ofZ 95)] = ofZ 10000.
Proof.
  split; [discriminate|].
  destruct (avgPricePerAcre_is_mean
              [sample 0 (ofZ 100000) (ofZ 0) (ofZ 70);
               sample 1 (ofZ 200000) (ofZ 10) (ofZ 95)]
              {| el_avgPrice := []; el_avgAcres := [];
                 el_marketNarrative := []; el_topPicks := [] |})
    as [H _]; [discriminate|].
  rewrite H. reflexivity.
Defined.

(** The same scenario for any two records with these prices and acreages. *)
Lemma scenario_zero_and_ten_acres p q :
  price p = ofZ 100000 -> acres p = ofZ 0 ->
  price q = ofZ 200000 -> acres q = ofZ 10 ->
  avgPricePerAcre [p; q] = ofZ 10000.
Proof.
  intros H1 H2 H3 H4. unfold avgPricePerAcre, Array_reduce, Array_length.
  cbn [fold_left length]. rewrite H1, H2, H3, H4. reflexivity.
Qed.

(** ** The empty collection *)

(** On an empty collection [renderAnalysis] returns at its guard: it
    completes normally and leaves the statistics, the narrative and the top
    picks of the page as they were, writing nothing.  The guard is what
    keeps the zero division and the exception away: the statements after it
    would write the average 0/0, which is NaN, and then throw on the missing
    top pick. *)
Theorem renderAnalysis_empty (page : Sidebar) :
  renderAnalysis [] page = Normal page /\
  exists page1,
    renderAnalysisBody [] page = Throw page1 /\
    el_avgPrice page1 = [Lit (str "$"); Localized nan] /\
    el_marketNarrative page1 = el_marketNarrative page /\
    el_topPicks page1 = el_topPicks page.
Proof.
  split; [reflexivity|].
  unfold renderAnalysisBody. cbn [sorted Array_sort fold_right].
  eexists. split; [reflexivity|]. cbn [el_avgPrice el_marketNarrative el_topPicks].
  repeat split.
Qed.

(** The guard is what keeps the division away: the quotients themselves
    would be 0/0. *)
Lemma averages_of_nothing :
  is_nan (avgPrice []) = true /\ is_nan (avgPricePerAcre []) = true.
Proof. split; reflexivity. Qed.

(** [renderAnalysis] never throws. *)
Lemma renderAnalysis_completes data page :
  exists page', renderAnalysis data page = Normal page'.
Proof.
  destruct data as [|p data].
  - now exists page.
  - destruct (renderAnalysis_nonempty (p :: data) page) as (t & r & _ & ->);
      [discriminate|]. eauto.
Qed.

(** ** Price per acre of one record *)

Lemma chartData_nth data i p :
  nth_error data i = Some p ->
  exists b, nth_error (chartData data) i = Some b /\
    Bubble.x b = driveTime p /\
    Bubble.y b = (if (0 <? acres p)%float
                  then Math_round (price p / acres p) else zero).
Proof.
  intros H. unfold chartData.
  eexists. split; [apply map_nth_error; exact H|]. split; reflexivity.
Qed.

(** C6 (as amended): with acres > 0 both the card and the chart use
    round(price / acres); without, the card shows the em dash, a text that
    is no number, and the chart plots the number 0. *)
Theorem pricePerAcre_per_use (data : list Property) (i : nat) (p : Property) :
  nth_error data i = Some p ->
  exists b, nth_error (chartData data) i = Some b /\
    if (0 <? acres p)%float
    then pricePerAcre p = Localized (Math_round (price p / acres p)) /\
         Bubble.y b = Math_round (price p / acres p)
    else pricePerAcre p = Lit [8212%N] /\
         (forall x, pricePerAcre p <> Localized x) /\
         Bubble.y b = zero.
Proof.
  intros H. destruct (chartData_nth data i p H) as (b & Hb & _ & Hy).
  exists b. split; [exact Hb|]. unfold pricePerAcre. rewrite Hy.
  destruct (0 <? acres p)%float; repeat split. discriminate.
Qed.

Lemma pricePerAcre_per_use_witness :
  exists b,
    nth_error (chartData [sample 0 (ofZ 200000) (ofZ 10) (ofZ 95)]) 0 = Some b /\
    pricePerAcre (sample 0 (ofZ 200000) (ofZ 10) (ofZ 95))
    = Localized (ofZ 20000) /\
    Bubble.y b = ofZ 20000.
Proof.
  destruct (pricePerAcre_per_use
              [sample 0 (ofZ 200000) (ofZ 10) (ofZ 95)] 0
              (sample 0 (ofZ 200000) (ofZ 10) (ofZ 95)) eq_refl)
    as (b & Hb & H).
  exists b. split; [exact Hb|]. exact H.
Defined.

(** C6, as stated, fails for the chart: a record without acreage is plotted
    at the number 0, while its card shows the em dash. *)
Lemma chart_plots_zero_without_acreage :
  (0 <? acres (sample 0 (ofZ 100000) (ofZ 0) (ofZ 70)))%float = false /\
  List.map Bubble.y (chartData [sample 0 (ofZ 100000) (ofZ 0) (ofZ 70)])
  = [zero] /\
  pricePerAcre (sample 0 (ofZ 100000) (ofZ 0) (ofZ 70)) = Lit [8212%N].
Proof. repeat split. Qed.

(** ** Numeric parsing *)







(** Absent, empty and non-numeric cells at work. *)
Lemma numeric_fields_default_example :
  let p := normalize
             (sampleRow (VString (str "call for price")) (VString [])) 7 in
  price p = zero /\ acres p = zero /\ driveTime p = zero /\ llmScore p = zero.
Proof. repeat split. Qed.


(** ** URL extraction: what the result can be *)

Lemma startsWith_nonempty s p : p <> [] -> startsWith s p = true -> s <> [].
Proof. destruct p; [contradiction|]. destruct s; [discriminate|discriminate]. Qed.

(** X1: the result of [extractURL] is never empty, and it holds a double quote
    only when the cell was a plain [http://] or [https://] text, which is
    returned as it is. *)
Theorem extractURL_result (v : Value) :
  extractURL v <> [] /\
  (extractURL v = str "#" \/
   (exists s k, v = VString s /\ FormulaAt (skipn k s) (extractURL v)) \/
   (exists s, v = VString s /\ extractURL v = s /\
      (startsWith s (str "http://") = true \/
       startsWith s (str "https://") = true))) /\
  (In dquote (extractURL v) ->
   exists s, v = VString s /\ extractURL v = s /\
     (startsWith s (str "http://") = true \/
      startsWith s (str "https://") = true)).
Proof.
  assert (Hcases :
    extractURL v = str "#" \/
    (exists s k, v = VString s /\ FormulaAt (skipn k s) (extractURL v)) \/
    (exists s, v = VString s /\ extractURL v = s /\
       (startsWith s (str "http://") = true \/
        startsWith s (str "https://") = true))).
  { destruct v as [|b|s|x]; try (left; reflexivity).
    destruct (hyperlinkMatch s) as [u|] eqn:E.
    - right. left. rewrite (extractURL_of_match s u E).
      apply hyperlinkMatch_sound in E as [k Hk]. now exists s, k.
    - rewrite (extractURL_no_match s E).
      destruct (startsWith s (str "http://")) eqn:E1;
        [|destruct (startsWith s (str "https://")) eqn:E2]; cbn [orb].
      + right. right. exists s. auto.
      + right. right. exists s. auto.
      + now left. }
  split; [|split; [exact Hcases|]].
  - destruct Hcases as [H|[(s & k & _ & H)|(s & _ & H & Hp)]].
    + rewrite H. discriminate.
    + destruct H as (_ & _ & _ & _ & _ & _ & Hne & _). exact Hne.
    + rewrite H. destruct Hp as [Hp|Hp];
        eapply startsWith_nonempty; try exact Hp; discriminate.
  - intros Hq. destruct Hcases as [H|[(s & k & _ & H)|H]].
    + rewrite H in Hq. cbn in Hq. exfalso.
      destruct Hq as [Hq|[]]. discriminate Hq.
    + destruct H as (_ & _ & _ & _ & _ & _ & _ & Hnq). contradiction.
    + exact H.
Qed.

(** ** Retained records and the rows they come from *)

(** X2: the retained records keep the order of the sheet; the id of each is
    the position of its row in the sheet, so that ids are distinct and lead
    back to the rows; and there are no more records than rows. *)
Theorem retained_ids_index_rows (rawJson : list RawRow) :
  StronglySorted (fun a b => (id a < id b)%nat) (loadExcelData rawJson) /\
  List.NoDup (List.map id (loadExcelData rawJson)) /\
  (length (loadExcelData rawJson) <= length rawJson)%nat /\
  Forall (fun p => exists row,
            nth_error rawJson (id p) = Some row /\
            p = normalize row (id p) /\ valid p = true)
         (loadExcelData rawJson).
Proof.
  assert (Hs := loadExcelData_ids rawJson).
  split; [exact Hs|]. split; [|split].
  - induction Hs as [|p l Hs IH Hp]; cbn; [apply List.NoDup_nil|].
    apply List.NoDup_cons; [|exact IH].
    intros Hin. apply in_map_iff in Hin as (q & Hq & Hin).
    rewrite List.Forall_forall in Hp. specialize (Hp q Hin). lia.
  - unfold loadExcelData, Array_map.
    eapply Nat.le_trans; [apply filter_length_le|].
    clear Hs. generalize 0%nat. induction rawJson as [|r l IH]; intros i; cbn;
      [lia|]. specialize (IH (S i)). lia.
  - rewrite List.Forall_forall. intros p Hp.
    unfold loadExcelData, Array_map in Hp. apply filter_In in Hp as [Hin Hv].
    apply mapFrom_In in Hin as (row & k & Hk & E). cbn in E.
    exists row. subst p. cbn [id normalize]. auto.
Qed.

(** ** Ranking once more *)

Lemma ranksBefore_not_after x y :
  is_nan (llmScore x) = false -> is_nan (llmScore y) = false ->
  ranksBefore x y ->
  (0 <? llmScore y - llmScore x)%float = false.
Proof.
  intros Hx Hy H. rewrite score_order by assumption.
  apply Z.ltb_ge. destruct H as [H|[H _]].
  - rewrite ltb_rank in H by assumption. apply Z.ltb_lt in H. lia.
  - rewrite eqb_rank in H by assumption. apply Z.eqb_eq in H. lia.
Qed.

Lemma sorted_fixed l :
  Forall (fun p => is_nan (llmScore p) = false) l ->
  StronglySorted ranksBefore l -> sorted l = l.
Proof.
  intros Hg Hs. induction Hs as [|x l Hs IH Hx]; [reflexivity|].
  inversion Hg as [|? ? Gx Gl]; subst.
  unfold sorted, Array_sort in *. cbn [fold_right]. rewrite (IH Gl).
  destruct l as [|y t]; [reflexivity|]. cbn [insertSorted].
  inversion Hx as [|? ? Hxy _]; subst. inversion Gl as [|? ? Gy _]; subst.
  now rewrite (ranksBefore_not_after x y Gx Gy Hxy).
Qed.

(** X3: ranking is idempotent on a retained collection: ranking the ranked
    sequence again leaves it as it is. *)
Theorem sorted_idempotent (rawJson : list RawRow) :
  sorted (sorted (loadExcelData rawJson)) = sorted (loadExcelData rawJson).
Proof.
  apply sorted_fixed.
  - rewrite sorted_perm. apply loadExcelData_scores.
  - apply sorted_ranked; [apply loadExcelData_scores|apply loadExcelData_ids].
Qed.

Lemma no_trophy_after_first (l : list Property) : forall i,
  Forall (fun c : Property * bool => snd c = false)
    (mapFrom (fun pick idx => (pick, (idx =? 0)%nat)) (S i) l).
Proof.
  induction l as [|c l IH]; intros i; cbn; constructor;
    [reflexivity|apply IH].
Qed.

(** X4: for a retained collection that is not empty, the record the market
    narrative names is one of the collection, no record has a higher score,
    and among the records with its score it has the lowest id; its card is
    the first of the top picks and the only one with the trophy. *)
Theorem top_pick_is_best (rawJson : list RawRow) (page : Sidebar) :
  loadExcelData rawJson <> [] ->
  exists topPick rest page',
    sorted (loadExcelData rawJson) = topPick :: rest /\
    renderAnalysis (loadExcelData rawJson) page = Normal page' /\
    el_marketNarrative page'
    = narrative topPick (avgPricePerAcre (loadExcelData rawJson))
        (Array_length (loadExcelData rawJson)) /\
    In topPick (loadExcelData rawJson) /\
    (forall p, In p (loadExcelData rawJson) ->
       (llmScore topPick <? llmScore p)%float = false /\
       ((llmScore topPick =? llmScore p)%float = true ->
        (id topPick <= id p)%nat)) /\
    (exists others,
       el_topPicks page' = (topPick, true) :: others /\
       Forall (fun c => snd c = false) others).
Proof.
  intros Hne. set (data := loadExcelData rawJson) in *.
  destruct (renderAnalysis_nonempty data page Hne) as (t & r & Es & ->).
  exists t, r. eexists. split; [exact Es|]. split; [reflexivity|].
  cbn [el_marketNarrative el_topPicks]. split; [reflexivity|].
  assert (Hperm := sorted_perm data).
  assert (Hgood : Forall (fun p => is_nan (llmScore p) = false) data)
    by apply loadExcelData_scores.
  assert (Hsort : StronglySorted ranksBefore (sorted data))
    by (apply sorted_ranked; [exact Hgood|apply loadExcelData_ids]).
  rewrite Es in Hperm, Hsort.
  assert (Hin : In t data) by (rewrite <- Hperm; now left).
  split; [exact Hin|]. split.
  - intros p Hp. rewrite List.Forall_forall in Hgood.
    assert (Gt := Hgood t Hin). assert (Gp := Hgood p Hp).
    rewrite <- Hperm in Hp. destruct Hp as [<-|Hp].
    + split; [|lia]. rewrite ltb_rank by assumption. apply Z.ltb_irrefl.
    + inversion Hsort as [|? ? _ Hall]; subst.
      rewrite List.Forall_forall in Hall. specialize (Hall p Hp).
      rewrite ltb_rank, eqb_rank by assumption.
      destruct Hall as [H|[H1 H2]].
      * rewrite ltb_rank in H by assumption. apply Z.ltb_lt in H.
        split; [apply Z.ltb_ge; lia|]. intros E. apply Z.eqb_eq in E. lia.
      * rewrite eqb_rank in H1 by assumption. apply Z.eqb_eq in H1.
        split; [apply Z.ltb_ge; lia|]. intros _. lia.
  - rewrite Es. unfold Array_slice0, Array_map. cbn [firstn mapFrom].
    eexists. split; [reflexivity|]. apply no_trophy_after_first.
Qed.

Lemma top_pick_is_best_witness :
  exists topPick rest,
    sorted (loadExcelData scenarioRows) = topPick :: rest /\
    In topPick (loadExcelData scenarioRows).
Proof.
  destruct (top_pick_is_best scenarioRows blank)
    as (t & r & page' & Hs & _ & _ & Hin & _).
  - vm_compute. discriminate.
  - exists t, r. split; [exact Hs|exact Hin].
Defined.

(** ** Numbers: quotients and sums that are not NaN *)

Lemma is_nan_false_intro x : Prim2SF x <> S754_nan -> is_nan x = false.
Proof.
  intros H. unfold is_nan. rewrite FloatAxioms.eqb_spec.
  destruct (SFeqb (Prim2SF x) (Prim2SF x)) eqn:E; [reflexivity|].
  now apply SFcompare_refl_nan in E.
Qed.

Lemma shr_fexp_nonneg m e l :
  0 <= m -> 0 <= shr_m (fst (shr_fexp prec emax m e l)).
Proof.
  intros Hm. unfold shr_fexp, shr.
  destruct (fexp prec emax (Zdigits2 m + e) - e)%Z as [|q|q];
    cbn [fst]; rewrite ?shr_m_of_loc; try exact Hm.
  rewrite iter_pos_shr_1 by (now rewrite shr_m_of_loc).
  rewrite shr_m_of_loc. apply Z.div_pos; [exact Hm|].
  apply Z.pow_pos_nonneg; lia.
Qed.

Lemma round_nearest_even_nonneg m l : 0 <= m -> 0 <= round_nearest_even m l.
Proof.
  intros Hm. destruct l as [|[]]; cbn [round_nearest_even]; stdz; try lia.
  destruct (Z.even m); lia.
Qed.

Lemma binary_round_aux_signedOrZero s m e l :
  0 <= m -> signedOrZero s (binary_round_aux prec emax s m e l).
Proof.
  intros Hm. unfold binary_round_aux.
  pose proof (shr_fexp_nonneg m e l Hm) as H1.
  destruct (shr_fexp prec emax m e l) as [mrs' e']. cbn [fst] in H1.
  pose proof (round_nearest_even_nonneg (shr_m mrs') (loc_of_shr_record mrs') H1)
    as H2.
  pose proof (shr_fexp_nonneg _ e' loc_Exact H2) as H3.
  destruct (shr_fexp prec emax _ e' loc_Exact) as [mrs'' e'']. cbn [fst] in H3.
  destruct (shr_m mrs'') as [|q|q]; try lia; [reflexivity|].
  destruct (IntDef.Z.leb e'' (IntDef.Z.sub emax prec)); reflexivity.
Qed.

Lemma SFdiv_finite x sy my ey :
  x <> S754_nan ->
  SFdiv prec emax x (S754_finite sy my ey) <> S754_nan /\
  forall s, signedOrZero s x ->
    signedOrZero (xorb s sy) (SFdiv prec emax x (S754_finite sy my ey)).
Proof.
  intros Hx. destruct x as [sx|sx| |sx mx ex]; [| |congruence|];
    cbn [SFdiv signedOrZero].
  - split; [discriminate|now intros s ->].
  - split; [discriminate|now intros s ->].
  - unfold SFdiv_core_binary.
    set (m' := match _ with 0 => Zpos mx | Zpos _ => _ | Zneg _ => 0 end).
    assert (Hm : 0 <= m').
    { unfold m'. destruct (_ - _ - _)%Z; try lia.
      change IntDef.Z.shiftl with Z.shiftl. apply Z.shiftl_nonneg. lia. }
    change IntDef.Z.div_eucl with Z.div_eucl.
    pose proof (Z_div_mod m' (Zpos my) eq_refl) as Hq.
    destruct (Z.div_eucl m' (Zpos my)) as [q r].
    assert (H0 : 0 <= q) by nia.
    pose proof (binary_round_aux_signedOrZero (xorb sx sy) q
      (IntDef.Z.min
         (fexp prec emax
            (Zdigits2 (Zpos mx) + ex - (Zdigits2 (Zpos my) + ey)))
         (ex - ey)) (new_location (Zpos my) r) H0) as Hr.
    split.
    + intros E. rewrite E in Hr. exact Hr.
    + now intros s ->.
Qed.

Lemma SFadd_signedOrZero x y :
  signedOrZero false x -> signedOrZero false y ->
  signedOrZero false (SFadd prec emax x y).
Proof.
  destruct x as [sx|sx| |sx mx ex]; destruct y as [sy|sy| |sy my ey];
    cbn [signedOrZero SFadd]; try tauto; try (intros -> ->; reflexivity).
  intros -> ->. cbn [cond_Zopp]. stdz. unfold binary_normalize.
  destruct (Zpos _ + Zpos _) as [|p|p] eqn:E; try lia.
  unfold binary_round.
  destruct (shl_align p _ _) as [mz ez].
  now apply binary_round_aux_signedOrZero.
Qed.

Lemma signedOrZero_not_negative x :
  signedOrZero false (Prim2SF x) ->
  is_nan x = false /\ (x <? 0)%float = false.
Proof.
  intros H. split.
  - apply is_nan_false_intro. intros E. now rewrite E in H.
  - rewrite FloatAxioms.ltb_spec. change (Prim2SF 0) with (S754_zero false).
    destruct (Prim2SF x) as [s|s| |s m e]; cbn in H; try contradiction;
      subst; reflexivity.
Qed.

Lemma positive_signedOrZero x :
  (0 <? x)%float = true -> signedOrZero false (Prim2SF x).
Proof.
  rewrite FloatAxioms.ltb_spec. change (Prim2SF 0) with (S754_zero false).
  destruct (Prim2SF x) as [s|s| |s m e]; cbn; try discriminate;
    destruct s; try discriminate; reflexivity.
Qed.

Lemma fold_add_signedOrZero (l : list Property) : forall acc,
  signedOrZero false (Prim2SF acc) ->
  Forall (fun p => (0 <? price p)%float = true) l ->
  signedOrZero false (Prim2SF (fold_left (fun s p => (s + price p)%float) l acc)).
Proof.
  induction l as [|p l IH]; intros acc Ha Hl; cbn [fold_left].
  - exact Ha.
  - inversion Hl as [|? ? Hp Hl']; subst. apply IH; [|exact Hl'].
    rewrite FloatAxioms.add_spec.
    apply SFadd_signedOrZero; [exact Ha|now apply positive_signedOrZero].
Qed.

Lemma mapFrom_length {A B} (f : A -> nat -> B) l : forall i,
  length (mapFrom f i l) = length l.
Proof.
  induction l as [|x l IH]; intros i; cbn; [reflexivity|]. now rewrite IH.
Qed.

Lemma loadExcelData_length rawJson :
  (length (loadExcelData rawJson) <= length rawJson)%nat.
Proof.
  unfold loadExcelData, Array_map.
  rewrite <- (mapFrom_length normalize rawJson 0).
  apply filter_length_le.
Qed.

Lemma loadExcelData_prices rawJson :
  Forall (fun p => (0 <? price p)%float = true) (loadExcelData rawJson).
Proof.
  rewrite List.Forall_forall. intros p Hp.
  apply loadExcelData_In in Hp as [Hv _]. unfold valid in Hv.
  apply andb_true_iff in Hv as [Hv _]. now apply andb_true_iff in Hv as [Hv _].
Qed.

(** X5: the average price of a retained collection that is not empty is
    never NaN and never negative, whatever the prices are; this is what the
    sidebar rounds and shows.  (The average price per acre has no such
    guarantee: an infinite price over an infinite acreage is NaN.) *)
Theorem avgPrice_not_NaN (rawJson : list RawRow) :
  Z.of_nat (length rawJson) < 2 ^ 32 ->
  loadExcelData rawJson <> [] ->
  is_nan (avgPrice (loadExcelData rawJson)) = false /\
  (avgPrice (loadExcelData rawJson) <? 0)%float = false.
Proof.
  intros Hlen Hne. apply signedOrZero_not_negative.
  unfold avgPrice, Array_reduce, Array_length.
  pose proof (loadExcelData_length rawJson) as Hle.
  pose proof (fold_add_signedOrZero (loadExcelData rawJson) zero eq_refl
                (loadExcelData_prices rawJson)) as Hsum.
  destruct (Z.of_nat (length (loadExcelData rawJson))) as [|n|n] eqn:En;
    [destruct (loadExcelData rawJson); [contradiction|discriminate]| |lia].
  rewrite FloatAxioms.div_spec, Prim2SF_ofZ_pos by lia.
  refine (proj2 (SFdiv_finite _ false _ _ _) false Hsum).
  intros E. rewrite E in Hsum. exact Hsum.
Qed.

Lemma avgPrice_not_NaN_witness :
  is_nan (avgPrice (loadExcelData scenarioRows)) = false.
Proof.
  refine (proj1 (avgPrice_not_NaN scenarioRows _ _)).
  - reflexivity.
  - vm_compute. discriminate.
Defined.

Lemma ltb_false_of_ltb x y :
  is_nan x = false -> is_nan y = false ->
  (x <? y)%float = true -> (y <? x)%float = false.
Proof.
  intros Hx Hy. rewrite !ltb_rank by assumption.
  intros H. apply Z.ltb_lt in H. apply Z.ltb_ge. lia.
Qed.

Lemma Math_max_lower x y :
  is_nan x = false -> is_nan y = false ->
  is_nan (Math_max x y) = false /\ (Math_max x y <? x)%float = false.
Proof.
  intros Hx Hy. unfold Math_max. rewrite Hx, Hy. cbn [orb].
  destruct (x <? y)%float eqn:E1.
  - split; [exact Hy|]. now apply ltb_false_of_ltb.
  - destruct (y <? x)%float eqn:E2.
    + split; [exact Hx|]. rewrite ltb_rank by assumption. apply Z.ltb_irrefl.
    + destruct (get_sign x).
      * split; [exact Hy|exact E2].
      * split; [exact Hx|]. rewrite ltb_rank by assumption. apply Z.ltb_irrefl.
Qed.

Lemma div_not_nan x y sy my ey :
  Prim2SF y = S754_finite sy my ey -> is_nan x = false -> is_nan (x / y) = false.
Proof.
  intros Ey Hx. apply is_nan_false_intro.
  rewrite FloatAxioms.div_spec, Ey. apply SFdiv_finite.
  now apply is_nan_false_spec.
Qed.

(** X6: every bubble of the chart of a retained collection has a radius that
    is a number and not below 4, and a horizontal position that is a number:
    the score and the distance default to 0 when the cell holds no number,
    so that [Math.max] never sees NaN. *)
Theorem bubble_radius_at_least_4 (rawJson : list RawRow) :
  Forall (fun b => is_nan (Bubble.r b) = false /\
                   (Bubble.r b <? ofZ 4)%float = false /\
                   is_nan (Bubble.x b) = false)
         (chartData (loadExcelData rawJson)).
Proof.
  unfold chartData. rewrite List.Forall_map, List.Forall_forall.
  intros p Hp. cbn [Bubble.r Bubble.x].
  apply loadExcelData_In in Hp as (_ & row & k & _ & ->).
  cbn [llmScore driveTime normalize].
  destruct (Math_max_lower (ofZ 4)
              (orZero (parseInt (cell row "LLM Score")) / ofZ 8)) as [H1 H2].
  - reflexivity.
  - apply (div_not_nan _ _ false 4503599627370496%positive (-49));
      [reflexivity|apply orZero_not_nan].
  - split; [exact H1|]. split; [exact H2|apply orZero_not_nan].
Qed.

(** ** Fetching *)

Lemma tryPaths_spec fetch paths :
  match snd (tryPaths fetch paths) with
  | Some (res, path) =>
      exists i,
        nth_error paths i = Some path /\
        fetch path = Resolves res /\ Response.ok res = true /\
        (forall j p, (j < i)%nat -> nth_error paths j = Some p ->
                     ~ answers fetch p) /\
        fst (tryPaths fetch paths) = firstn (S i) paths
  | None =>
      (forall p, In p paths -> ~ answers fetch p) /\
      fst (tryPaths fetch paths) = paths
  end.
Proof.
  induction paths as [|path rest IH]; cbn [tryPaths].
  - cbn. split; [tauto|reflexivity].
  - assert (Hskip : ~ answers fetch path ->
      match snd (tryPaths fetch rest) with
      | Some (res, p) =>
          exists i,
            nth_error (path :: rest) i = Some p /\
            fetch p = Resolves res /\ Response.ok res = true /\
            (forall j q, (j < i)%nat -> nth_error (path :: rest) j = Some q ->
                         ~ answers fetch q) /\
            path :: fst (tryPaths fetch rest) = firstn (S i) (path :: rest)
      | None =>
          (forall p, In p (path :: rest) -> ~ answers fetch p) /\
          path :: fst (tryPaths fetch rest) = path :: rest
      end).
    { intros Hno. destruct (snd (tryPaths fetch rest)) as [[res p]|].
      - destruct IH as (i & Hi & Hf & Hok & Hbefore & Hlog).
        exists (S i). repeat split; try assumption.
        + intros [|j] q Hj Hq; cbn in Hq.
          * now injection Hq as <-.
          * apply (Hbefore j q); [lia|exact Hq].
        + cbn [firstn]. now rewrite Hlog.
      - destruct IH as [Hall Hlog]. split.
        + intros p [<-|Hp]; [exact Hno|now apply Hall].
        + now rewrite Hlog. }
    destruct (fetch path) as [res|msg] eqn:Ef.
    + destruct (Response.ok res) eqn:Eok; cbn [fst snd].
      * exists 0%nat. repeat split; try assumption; try reflexivity.
        intros j p Hj. lia.
      * apply Hskip. intros (res' & E & Hok). congruence.
    + cbn [fst snd]. apply Hskip. intros (res' & E & _). congruence.
Qed.

(** X7: [fetchFromMultiplePaths] returns the Response and the path of the
    first candidate, in the order [data/list/], [data/], root, whose request
    is answered with a Response that is [ok]; a candidate answered otherwise
    or not at all is passed over.  It throws exactly when no candidate
    answers so. *)
Theorem fetchFromMultiplePaths_first_ok (fetch : Network) (fileName : list N) :
  match snd (fetchFromMultiplePaths fetch fileName) with
  | inl (res, path) =>
      exists i,
        nth_error (candidates fileName) i = Some path /\
        fetch path = Resolves res /\ Response.ok res = true /\
        (forall j p, (j < i)%nat ->
           nth_error (candidates fileName) j = Some p -> ~ answers fetch p)
  | inr message =>
      message = notFound fileName /\
      (forall p, In p (candidates fileName) -> ~ answers fetch p)
  end.
Proof.
  unfold fetchFromMultiplePaths.
  pose proof (tryPaths_spec fetch (candidates fileName)) as H.
  destruct (tryPaths fetch (candidates fileName)) as [log [[res path]|]];
    cbn [fst snd] in *.
  - destruct H as (i & H1 & H2 & H3 & H4 & _). now exists i.
  - destruct H as [H _]. split; [reflexivity|exact H].
Qed.

(** The three candidates differ, whatever the file name: one call never
    requests a path twice. *)
Lemma candidates_distinct (fileName : list N) :
  List.NoDup (candidates fileName).
Proof.
  assert (Hlen : forall a b c : list N,
            length a <> length b -> a ++ c <> b ++ c).
  { intros a b c Hl E. apply app_inv_tail in E. congruence. }
  unfold candidates.
  repeat (apply List.NoDup_cons); try apply List.NoDup_nil; cbn [In].
  - intros [E|[E|[]]].
    + revert E. rewrite !app_assoc. apply Hlen. rewrite !length_app. cbn. lia.
    + revert E. rewrite app_assoc.
      change (fileName ++ str ".xlsx") with (([] ++ fileName) ++ str ".xlsx").
      apply Hlen. rewrite !length_app. cbn. lia.
  - intros [E|[]].
    revert E. rewrite app_assoc.
    change (fileName ++ str ".xlsx") with (([] ++ fileName) ++ str ".xlsx").
    apply Hlen. rewrite !length_app. cbn. lia.
  - tauto.
Qed.

(** X8: the requests go out in candidate order and stop with the first one
    that is answered with an [ok] Response: no path after it is requested, no
    path is requested twice, and when none is answered so, all three have
    been requested. *)
Theorem fetchFromMultiplePaths_requests (fetch : Network) (fileName : list N) :
  exists n,
    (1 <= n <= 3)%nat /\
    fst (fetchFromMultiplePaths fetch fileName)
    = firstn n (candidates fileName) /\
    List.NoDup (fst (fetchFromMultiplePaths fetch fileName)) /\
    (forall j p, (j < n - 1)%nat ->
       nth_error (candidates fileName) j = Some p -> ~ answers fetch p) /\
    ((n < 3)%nat ->
     exists res path,
       nth_error (candidates fileName) (n - 1) = Some path /\
       snd (fetchFromMultiplePaths fetch fileName) = inl (res, path)).
Proof.
  assert (Hnd : forall n, List.NoDup (firstn n (candidates fileName))).
  { intros n. apply (NoDup_app_remove_r _ (skipn n (candidates fileName))).
    rewrite firstn_skipn. apply candidates_distinct. }
  unfold fetchFromMultiplePaths.
  pose proof (tryPaths_spec fetch (candidates fileName)) as H.
  destruct (tryPaths fetch (candidates fileName)) as [log [[res path]|]];
    cbn [fst snd] in *.
  - destruct H as (i & H1 & H2 & H3 & H4 & H5).
    assert (Hi : (i < 3)%nat).
    { change 3%nat with (length (candidates fileName)).
      apply (proj1 (nth_error_Some _ _)). congruence. }
    exists (S i). replace (S i - 1)%nat with i by lia.
    rewrite H5. repeat split; try lia; try assumption; try apply Hnd.
    intros _. now exists res, path.
  - destruct H as [H1 H2]. exists 3%nat. rewrite H2.
    repeat split; try lia; try apply candidates_distinct.
    intros j p Hj Hp. apply H1. eapply nth_error_In. exact Hp.
Qed.

Lemma fetchFromMultiplePaths_none fetch fileName :
  (forall p, In p (candidates fileName) -> ~ answers fetch p) ->
  snd (fetchFromMultiplePaths fetch fileName) = inr (notFound fileName).
Proof.
  intros Hno. unfold fetchFromMultiplePaths.
  pose proof (tryPaths_spec fetch (candidates fileName)) as H.
  destruct (tryPaths fetch (candidates fileName)) as [log [[res path]|]];
    cbn [fst snd] in *; [|reflexivity].
  destruct H as (i & H1 & H2 & H3 & _). exfalso.
  apply (Hno path); [eapply nth_error_In; exact H1|]. now exists res.
Qed.

(** ** Rendering *)

Lemma forEachListing_returns libs l : forall d d' g,
  Display.listingGrid d = Some g ->
  forEachListing libs l d = Returns d' ->
  Display.listingGrid d' = Some (g ++ List.map card l) /\
  Display.markers d' =
    option_map (fun layers => layers ++ List.map marker l) (Display.markers d) /\
  Display.map d' = Display.map d /\
  Display.chartInstance d' = Display.chartInstance d /\
  Display.listingCount d' = Display.listingCount d /\
  Display.sidebar d' = Display.sidebar d.
Proof.
  induction l as [|p l IH]; intros d d' g Hg H; cbn [forEachListing] in H.
  - injection H as <-. rewrite Hg, app_nil_r.
    destruct (Display.markers d); cbn; rewrite ?app_nil_r; tauto.
  - rewrite Hg in H. cbn [default Display.markers Display.set_listingGrid] in H.
    destruct (Display.markers d) as [layers|] eqn:Em.
    + destruct (circleMarker libs p); [discriminate|].
      apply (IH _ _ (g ++ [card p])) in H; [|reflexivity].
      cbn in H. cbn [List.map option_map].
      rewrite <- !app_assoc in H. exact H.
    + apply (IH _ _ (g ++ [card p])) in H; [|reflexivity].
      cbn in H. rewrite Em in H. cbn [List.map option_map].
      rewrite <- !app_assoc in H. exact H.
Qed.

Lemma renderListings_returns libs data d d' :
  renderListings libs data d = Returns d' ->
  Display.listingGrid d' = Some (List.map card data) /\
  Display.listingCount d' =
    Some (NumberToString (Array_length data) ++ str " Strategic Assets") /\
  Display.markers d' =
    option_map (fun _ => List.map marker data) (Display.markers d) /\
  Display.map d' = Display.map d /\
  Display.chartInstance d' = Display.chartInstance d /\
  Display.sidebar d' = Display.sidebar d.
Proof.
  unfold renderListings, andThen. cbn [Display.markers Display.set_listingGrid].
  destruct (Display.markers d) as [layers|] eqn:Em.
  - destruct (clearLayers libs); [discriminate|].
    destruct (forEachListing _ _ _) as [d3|d3 m] eqn:E; [|discriminate].
    intros H. injection H as <-.
    apply (forEachListing_returns _ _ _ _ []) in E; [|reflexivity].
    cbn in E. cbn. tauto.
  - destruct (forEachListing _ _ _) as [d3|d3 m] eqn:E; [|discriminate].
    intros H. injection H as <-.
    apply (forEachListing_returns _ _ _ _ []) in E; [|reflexivity].
    cbn in E. rewrite Em in E. cbn in E. cbn. tauto.
Qed.

Lemma renderChart_returns libs data d d' :
  renderChart libs data d = Returns d' ->
  d' = Display.set_chartInstance (Some (chartData data)) d.
Proof.
  unfold renderChart, andThen.
  destruct (Display.chartInstance d).
  - destruct (chartDestroy libs); [discriminate|].
    destruct (newChart libs); [discriminate|]. now intros [= <-].
  - destruct (newChart libs); [discriminate|]. now intros [= <-].
Qed.

(** The sidebar [renderAnalysis] leaves is one it would leave again. *)
Lemma renderAnalysis_fixed data page page' :
  renderAnalysis data page = Normal page' ->
  renderAnalysis data page' = Normal page'.
Proof.
  destruct data as [|p data].
  - cbn. now intros [= <-].
  - intros H.
    destruct (renderAnalysis_nonempty (p :: data) page) as (t & r & Hs & E1);
      [discriminate|].
    destruct (renderAnalysis_nonempty (p :: data) page') as (t' & r' & Hs' & E2);
      [discriminate|].
    rewrite Hs in Hs'. injection Hs' as <- <-.
    rewrite E1 in H. rewrite E2. exact H.
Qed.

Lemma renderUI_returns libs data d d' :
  renderUI libs data d = Returns d' ->
  Display.listingGrid d' = Some (List.map card data) /\
  Display.listingCount d' =
    Some (NumberToString (Array_length data) ++ str " Strategic Assets") /\
  Display.markers d' =
    option_map (fun _ => List.map marker data) (Display.markers d) /\
  Display.chartInstance d' = Some (chartData data) /\
  renderAnalysis data (Display.sidebar d) = Normal (Display.sidebar d') /\
  Display.map d' =
    match Display.map d, Display.markers d, data, fitBounds libs with
    | Some _, Some _, _ :: _, None =>
        Some (FitBounds (List.map m_latlng (List.map marker data))
                (decimalToNumber false 15 (-2)))
    | _, _, _, _ => Display.map d
    end.
Proof.
  unfold renderUI, andThen.
  destruct (renderListings libs data d) as [d1|d1 m1] eqn:E1; [|discriminate].
  apply renderListings_returns in E1 as (G1 & G2 & G3 & G4 & G5 & G6).
  destruct (renderChart libs data d1) as [d2|d2 m2] eqn:E2; [|discriminate].
  apply renderChart_returns in E2 as ->.
  destruct d1 as [m1 l1 c1 g1 n1 s1]. cbn in G1, G2, G3, G4, G5, G6. subst.
  cbn [Display.sidebar Display.set_chartInstance].
  destruct (renderAnalysis data (Display.sidebar d)) as [sb|sb] eqn:E3;
    [|discriminate].
  cbn [Display.map Display.markers Display.set_sidebar].
  destruct (Display.map d) as [v|], (Display.markers d) as [layers|];
    cbn [option_map]; try (intros [= <-]; cbn; tauto).
  - destruct data as [|p data]; cbn [List.map length Nat.ltb Nat.leb].
    + intros [= <-]. cbn. tauto.
    + destruct (fitBounds libs); intros [= <-]; cbn; tauto.
Qed.

(** ** The page: what every sequence of events preserves *)


Lemma forEachListing_mapped libs l : forall d,
  Display.map (pageOf (forEachListing libs l d)) = Display.map d /\
  (Display.markers (pageOf (forEachListing libs l d)) <> None <->
   Display.markers d <> None).
Proof.
  induction l as [|p l IH]; intros d; cbn [forEachListing].
  - cbn. tauto.
  - cbn [Display.markers Display.set_listingGrid].
    destruct (Display.markers d) as [layers|] eqn:Em.
    + destruct (circleMarker libs p).
      * cbn. rewrite Em. tauto.
      * destruct (IH (Display.set_markers (Some (layers ++ [marker p]))
                   (Display.set_listingGrid
                      (Some (default [] (Display.listingGrid d) ++ [card p])) d)))
          as [H1 H2].
        rewrite H1, H2. cbn. split; [reflexivity|]. split; congruence.
    + destruct (IH (Display.set_listingGrid
                      (Some (default [] (Display.listingGrid d) ++ [card p])) d))
        as [H1 H2].
      rewrite H1, H2. cbn. rewrite Em. tauto.
Qed.

Lemma renderListings_mapped libs data d :
  Display.map (pageOf (renderListings libs data d)) = Display.map d /\
  (Display.markers (pageOf (renderListings libs data d)) <> None <->
   Display.markers d <> None).
Proof.
  unfold renderListings, andThen. cbn [Display.markers Display.set_listingGrid].
  destruct (Display.markers d) as [layers|] eqn:Em.
  - destruct (clearLayers libs).
    + cbn. rewrite Em. tauto.
    + pose proof (forEachListing_mapped libs data
        (Display.set_markers (Some []) (Display.set_listingGrid (Some []) d)))
        as [H1 H2].
      destruct (forEachListing _ _ _) as [d3|d3 m]; cbn in *;
        rewrite H1, H2; split; try reflexivity; split; congruence.
  - pose proof (forEachListing_mapped libs data
        (Display.set_listingGrid (Some []) d)) as [H1 H2].
    destruct (forEachListing _ _ _) as [d3|d3 m]; cbn in *;
      rewrite H1, H2, Em; tauto.
Qed.

Lemma renderChart_mapped libs data d :
  Display.map (pageOf (renderChart libs data d)) = Display.map d /\
  Display.markers (pageOf (renderChart libs data d)) = Display.markers d.
Proof.
  unfold renderChart, andThen.
  destruct (Display.chartInstance d); [destruct (chartDestroy libs)|];
    try destruct (newChart libs); cbn; tauto.
Qed.

Lemma renderUI_mapped libs data d :
  mapped d -> mapped (pageOf (renderUI libs data d)).
Proof.
  unfold mapped, renderUI, andThen. intros Hd.
  pose proof (renderListings_mapped libs data d) as [L1 L2].
  destruct (renderListings libs data d) as [d1|d1 m1]; cbn [pageOf] in *;
    [|rewrite L1; intros Hm; now apply Hd, L2].
  pose proof (renderChart_mapped libs data d1) as [C1 C2].
  destruct (renderChart libs data d1) as [d2|d2 m2]; cbn [pageOf] in *;
    [|rewrite C1, L1, C2; intros Hm; now apply Hd, L2].
  assert (Hd2 : Display.markers d2 <> None -> Display.map d2 <> None).
  { rewrite C1, L1, C2. intros Hm. now apply Hd, L2. }
  destruct (renderAnalysis data (Display.sidebar d2)) as [sb|sb];
    cbn [pageOf Display.map Display.markers Display.set_sidebar];
    [|exact Hd2].
  destruct (Display.map d2) as [v|] eqn:Ev; [|cbn; now rewrite Ev].
  destruct (Display.markers d2) as [layers|]; [|cbn; congruence].
  destruct (0 <? length layers)%nat; [|cbn; congruence].
  destruct (fitBounds libs); cbn; congruence.
Qed.

(** The three classes of the LED differ. *)
Ltac led_clash :=
  let E := fresh in
  intros E; exfalso; revert E; vm_compute; discriminate.

Lemma clearTimeout_lookup handle timers h cb :
  clearTimeout handle timers !! h = Some cb ->
  timers !! h = Some cb /\ handle <> Some h.
Proof.
  destruct handle as [k|]; cbn [clearTimeout].
  - rewrite lookup_delete_Some. intros [Hk E]. split; [exact E|congruence].
  - intros E. split; [exact E|discriminate].
Qed.

Lemma clearTimeout_unwatched s h :
  wellTimed s ->
  clearTimeout (App.loadTimeout s) (App.timers s) !! h <> Some Watchdog.
Proof.
  intros Ht E. apply clearTimeout_lookup in E as [E Hne].
  apply Hne. now apply (timed_watchdog s Ht).
Qed.

Lemma initial_invariant sidebar : invariant (initial sidebar).
Proof.
  split; cbn.
  - split; cbn; intros h; discriminate.
  - split; [discriminate|]. intros [h Hh]. cbn in Hh.
    now rewrite lookup_empty in Hh.
  - intros [h Hh]. cbn in Hh. now rewrite lookup_empty in Hh.
  - discriminate.
  - unfold mapped. cbn. congruence.
  - now exists [].
Qed.

Lemma loadExcelData_call_invariant fileName s :
  invariant s -> invariant (loadExcelData_call fileName s).
Proof.
  intros [Ht Hb Hf Hg Hm Hd].
  assert (Hw : watched (loadExcelData_call fileName s)).
  { exists (App.nextHandle s). cbn. apply lookup_insert_eq. }
  split; cbn.
  - split; cbn.
    + intros h cb. rewrite lookup_insert_Some.
      intros [[<- _]|[_ E]]; [lia|].
      apply clearTimeout_lookup in E as [E _].
      apply (timed_fresh s Ht) in E. lia.
    + intros h [= <-]. lia.
    + intros h. rewrite lookup_insert_Some.
      intros [[<- _]|[_ E]]; [reflexivity|].
      now apply clearTimeout_unwatched in E.
  - tauto.
  - intros _. exists (length (App.loads s)), (Fetching fileName).
    split; [|reflexivity]. now apply list_lookup_middle.
  - led_clash.
  - exact Hm.
  - exact Hd.
Qed.

Lemma loadExcelData_catch_invariant message s :
  wellTimed s -> mapped (App.display s) ->
  (exists rawJson, App.currentData s = loadExcelData rawJson) ->
  invariant (loadExcelData_catch message s).
Proof.
  intros Ht Hm Hd.
  assert (Hw : ~ watched (loadExcelData_catch message s)).
  { intros [h Hh]. cbn in Hh. now apply clearTimeout_unwatched in Hh. }
  split; cbn.
  - split; cbn.
    + intros h cb E. apply clearTimeout_lookup in E as [E _].
      now apply (timed_fresh s Ht) in E.
    + apply (timed_handle s Ht).
    + intros h E. now apply clearTimeout_unwatched in E.
  - split; [led_clash|tauto].
  - tauto.
  - led_clash.
  - exact Hm.
  - exact Hd.
Qed.

Lemma initMapTry_mapped leaflet d :
  mapped d -> mapped (fst (initMapTry leaflet d)).
Proof.
  unfold mapped. destruct leaflet; cbn; intuition congruence.
Qed.

(** A run of [initMap]'s [try] block leaves the page showing what it showed:
    the marker layer it makes is empty. *)
Lemma initMapTry_shows leaflet (s s' : App.State) :
  App.currentData s' = App.currentData s ->
  App.status s' = App.status s ->
  App.display s' = fst (initMapTry leaflet (App.display s)) ->
  shows s -> shows s'.
Proof.
  unfold shows. intros -> -> -> (H1 & H2 & H3 & H4 & H5 & H6).
  destruct leaflet; cbn; repeat split; try assumption;
    try (intros layers [= <-]; now right).
Qed.

Lemma initMap_invariant leaflet s : invariant s -> invariant (initMap leaflet s).
Proof.
  intros [Ht Hb Hf Hg Hm Hd]. unfold initMap.
  pose proof (initMapTry_mapped leaflet _ Hm) as Hm'.
  pose proof (fun s' => initMapTry_shows leaflet s s') as Hs.
  destruct (initMapTry leaflet (App.display s)) as [d completed].
  cbn [fst] in Hm', Hs.
  assert (Hw : forall s', App.timers s' =
                (if completed then App.timers s
                 else <[ App.nextHandle s := RetryMap ]> (App.timers s)) ->
              (watched s' <-> watched s)).
  { intros s' E. unfold watched. rewrite E. destruct completed; [tauto|].
    split; intros [h Hh]; exists h.
    - apply lookup_insert_Some in Hh as [[_ Hh]|[_ Hh]]; [discriminate|exact Hh].
    - apply lookup_insert_Some. right. split; [|exact Hh].
      intros <-. apply (timed_fresh s Ht) in Hh. lia. }
  split; cbn.
  - split; cbn.
    + intros h cb. destruct completed; [apply (timed_fresh s Ht)|].
      rewrite lookup_insert_Some. intros [[<- _]|[_ E]]; [lia|].
      apply (timed_fresh s Ht) in E. lia.
    + intros h E. apply (timed_handle s Ht) in E. destruct completed; lia.
    + intros h. destruct completed; [apply (timed_watchdog s Ht)|].
      rewrite lookup_insert_Some. intros [[_ E]|[_ E]]; [discriminate|].
      now apply (timed_watchdog s Ht).
  - rewrite Hw by reflexivity. exact Hb.
  - rewrite Hw by reflexivity. exact Hf.
  - intros E. apply Hs; try reflexivity. now apply Hg.
  - exact Hm'.
  - exact Hd.
Qed.

Lemma loadExcelData_fetched_invariant i fetch s :
  invariant s -> invariant (loadExcelData_fetched i fetch s).
Proof.
  intros Hs. pose proof Hs as [Ht Hb Hf Hg Hm Hd]. unfold loadExcelData_fetched.
  destruct (App.loads s !! i) as [[fileName|fileName response|]|] eqn:Ei;
    try exact Hs.
  destruct (snd (fetchFromMultiplePaths fetch fileName)) as [[response path]|message].
  - split; cbn.
    + split; [apply (timed_fresh s Ht)|apply (timed_handle s Ht)
             |apply (timed_watchdog s Ht)].
    + exact Hb.
    + intros Hw. destruct (Hf Hw) as (j & l & Hj & Hl).
      destruct (decide (i = j)) as [<-|Hne].
      * exists i, (Buffering fileName response). split; [|reflexivity].
        apply list_lookup_insert_eq. now apply lookup_lt_Some in Ei.
      * exists j, l. split; [|exact Hl]. now rewrite list_lookup_insert_ne.
    + intros E. destruct (Hg E) as (H1 & H2). split; assumption.
    + exact Hm.
    + exact Hd.
  - apply loadExcelData_catch_invariant; cbn; try assumption.
    split; [apply (timed_fresh s Ht)|apply (timed_handle s Ht)
           |apply (timed_watchdog s Ht)].
Qed.

Lemma loadExcelData_buffered_invariant i libs s :
  invariant s -> invariant (loadExcelData_buffered i libs s).
Proof.
  intros Hs. pose proof Hs as [Ht Hb Hf Hg Hm Hd]. unfold loadExcelData_buffered.
  destruct (App.loads s !! i) as [[fileName|fileName response|]|] eqn:Ei;
    try exact Hs.
  destruct (Response.sheet response) as [rawJson|message].
  - pose proof (renderUI_mapped libs (loadExcelData rawJson) _ Hm) as Hm'.
    pose proof (renderUI_returns libs (loadExcelData rawJson) (App.display s))
      as Hr.
    destruct (renderUI libs (loadExcelData rawJson) (App.display s))
      as [d|d message]; cbn [pageOf] in Hm'.
    + specialize (Hr d eq_refl) as (R1 & R2 & R3 & R4 & R5 & R6).
      assert (Hw : ~ watched
        {| App.currentData := loadExcelData rawJson;
           App.loadTimeout := App.loadTimeout s;
           App.timers := clearTimeout (App.loadTimeout s) (App.timers s);
           App.nextHandle := App.nextHandle s;
           App.loads := <[ i := Finished ]> (App.loads s);
           App.status :=
             Some (InnerText
               (fileName ++ str " LOADED " ++ [8212%N] ++ str " "
                ++ NumberToString (Array_length (loadExcelData rawJson))
                ++ str " properties"));
           App.statusLed := Some ledGreen;
           App.pathTrace := App.pathTrace s;
           App.display := d |}).
      { intros [h Hh]. cbn in Hh. now apply clearTimeout_unwatched in Hh. }
      split; cbn.
      * split; cbn.
        -- intros h cb E. apply clearTimeout_lookup in E as [E _].
           now apply (timed_fresh s Ht) in E.
        -- apply (timed_handle s Ht).
        -- intros h E. now apply clearTimeout_unwatched in E.
      * split; [led_clash|tauto].
      * tauto.
      * intros _. unfold shows. cbn.
        split; [now exists fileName|]. repeat split; try assumption.
        -- eapply renderAnalysis_fixed. exact R5.
        -- intros layers E. rewrite R3 in E.
           destruct (Display.markers (App.display s)); [|discriminate].
           injection E as <-. now left.
      * exact Hm'.
      * now exists rawJson.
    + apply loadExcelData_catch_invariant; cbn.
      * split; cbn.
        -- intros h cb E. apply clearTimeout_lookup in E as [E _].
           now apply (timed_fresh s Ht) in E.
        -- apply (timed_handle s Ht).
        -- intros h E. now apply clearTimeout_unwatched in E.
      * exact Hm'.
      * now exists rawJson.
  - apply loadExcelData_catch_invariant; cbn; try assumption.
    split; [apply (timed_fresh s Ht)|apply (timed_handle s Ht)
           |apply (timed_watchdog s Ht)].
Qed.

Lemma step_invariant s e : invariant s -> invariant (step s e).
Proof.
  intros Hs. pose proof Hs as [Ht Hb Hf Hg Hm Hd].
  destruct e as [leaflet|value|i fetch|i libs|handle leaflet|i];
    cbn [step].
  - now apply loadExcelData_call_invariant, initMap_invariant.
  - now apply loadExcelData_call_invariant.
  - now apply loadExcelData_fetched_invariant.
  - now apply loadExcelData_buffered_invariant.
  - destruct (App.timers s !! handle) as [[|]|] eqn:Eh; [| |exact Hs].
    + (* the watchdog *)
      assert (Hw : forall h, delete handle (App.timers s) !! h <> Some Watchdog).
      { intros h E. apply lookup_delete_Some in E as [Hne E].
        apply (timed_watchdog s Ht) in E, Eh. congruence. }
      split; cbn.
      * split; cbn.
        -- intros h cb E. apply lookup_delete_Some in E as [_ E].
           now apply (timed_fresh s Ht) in E.
        -- apply (timed_handle s Ht).
        -- intros h E. now apply Hw in E.
      * split; [led_clash|]. intros [h E]. now apply Hw in E.
      * intros [h E]. now apply Hw in E.
      * led_clash.
      * exact Hm.
      * exact Hd.
    + (* the retry of the map *)
      assert (Hw : forall s', App.timers s' = delete handle (App.timers s) ->
                (watched s' <-> watched s)).
      { intros s' E. unfold watched. rewrite E.
        split; intros [h Hh]; exists h.
        - now apply lookup_delete_Some in Hh as [_ Hh].
        - apply lookup_delete_Some. split; [congruence|exact Hh]. }
      split; cbn.
      * split; cbn.
        -- intros h cb E. apply lookup_delete_Some in E as [_ E].
           now apply (timed_fresh s Ht) in E.
        -- apply (timed_handle s Ht).
        -- intros h E. apply lookup_delete_Some in E as [_ E].
           now apply (timed_watchdog s Ht).
      * rewrite Hw by reflexivity. exact Hb.
      * rewrite Hw by reflexivity. exact Hf.
      * intros E. eapply (initMapTry_shows leaflet s); try reflexivity.
        now apply Hg.
      * now apply initMapTry_mapped.
      * exact Hd.
  - destruct (Display.listingGrid (App.display s)) as [cards|] eqn:Eg;
      [|exact Hs].
    destruct (cards !! i) as [c|]; [|exact Hs].
    destruct (Display.map (App.display s)) as [v|] eqn:Ev; [|exact Hs].
    split; cbn.
    + split; [apply (timed_fresh s Ht)|apply (timed_handle s Ht)
             |apply (timed_watchdog s Ht)].
    + exact Hb.
    + exact Hf.
    + intros E. destruct (Hg E) as (H1 & H2 & H3 & H4 & H5 & H6).
      unfold shows. cbn. repeat split; assumption.
    + unfold mapped. cbn. congruence.
    + exact Hd.
Qed.

Lemma run_invariant events : forall s, invariant s -> invariant (run events s).
Proof.
  unfold run. induction events as [|e events IH]; intros s Hs; cbn.
  - exact Hs.
  - now apply IH, step_invariant.
Qed.

(** ** The page: the watchdog, the LED and the data *)

(** X9: after any sequence of events, a watchdog is armed exactly while the
    LED shows the loading colour; the only watchdog that can be armed is the
    one [loadTimeout] names, so there is never more than one; and while one
    is armed some load has not run to its end. *)
Theorem watchdog_armed_iff_led_blue (sidebar : Sidebar) (events : list Event) :
  let s := run events (initial sidebar) in
  (watched s <-> App.statusLed s = Some ledBlue) /\
  (forall h, App.timers s !! h = Some Watchdog -> App.loadTimeout s = Some h) /\
  (forall h h', App.timers s !! h = Some Watchdog ->
                App.timers s !! h' = Some Watchdog -> h = h') /\
  (watched s -> exists i l, App.loads s !! i = Some l /\ inFlight l = true).
Proof.
  intros s.
  destruct (run_invariant events _ (initial_invariant sidebar))
    as [Ht Hb Hf _ _ _].
  fold s in Ht, Hb, Hf.
  split; [symmetry; exact Hb|]. split; [apply (timed_watchdog s Ht)|].
  split; [|exact Hf].
  intros h h' Hh Hh'. apply (timed_watchdog s Ht) in Hh, Hh'. congruence.
Qed.

(** X10: after any sequence of events, if the LED shows the success colour then
    the page shows [currentData]: the status line counts it, the grid holds
    one card per record in order, the chart one bubble per record, the
    sidebar is the one [renderAnalysis] leaves for it, the marker layer
    holds its markers or nothing; and no watchdog is armed. *)
Theorem led_green_shows_currentData (sidebar : Sidebar) (events : list Event) :
  let s := run events (initial sidebar) in
  App.statusLed s = Some ledGreen ->
  shows s /\ ~ watched s /\
  (forall i, tooltipLabel (App.currentData s) i = [] <->
             nth_error (default [] (Display.chartInstance (App.display s))) i
             = None).
Proof.
  intros s Hg.
  destruct (run_invariant events _ (initial_invariant sidebar))
    as [_ Hb _ Hs _ _].
  fold s in Hb, Hs. specialize (Hs Hg). split; [exact Hs|]. split.
  - intros Hw. apply Hb in Hw. rewrite Hg in Hw. revert Hw. led_clash.
  - destruct Hs as (_ & _ & _ & Hc & _). rewrite Hc. cbn [default].
    intros i. unfold tooltipLabel, chartData.
    unfold Datatypes.id. rewrite List.nth_error_map.
    destruct (nth_error (App.currentData s) i); cbn; split; congruence.
Qed.

(** X11: [currentData] only ever holds retained records: after any sequence of
    events every record has a positive price and a latitude and a longitude
    that are not NaN, and the ids increase along it. *)
Theorem currentData_always_valid (sidebar : Sidebar) (events : list Event) :
  let data := App.currentData (run events (initial sidebar)) in
  Forall (fun p => (0 <? price p)%float = true /\
                   is_nan (lat p) = false /\ is_nan (lng p) = false) data /\
  StronglySorted (fun a b => (id a < id b)%nat) data.
Proof.
  intros data.
  destruct (run_invariant events _ (initial_invariant sidebar))
    as [_ _ _ _ _ [rawJson Hd]].
  fold data in Hd. rewrite Hd. split; [|apply loadExcelData_ids].
  rewrite List.Forall_forall. intros p Hp.
  apply loadExcelData_In in Hp as [Hv _]. unfold valid, isNaN in Hv.
  apply andb_true_iff in Hv as [Hv H3]. apply andb_true_iff in Hv as [H1 H2].
  apply negb_true_iff in H2, H3. auto.
Qed.

(** X12: when a load runs to its end, with success or in the [catch] block,
    no watchdog is left armed and the LED no longer shows the loading
    colour, while every other load is where it was: a load still in flight
    is from then on without a watchdog. *)
Theorem finished_load_disarms_watchdog (sidebar : Sidebar)
    (events : list Event) (e : Event) (i : nat) (l : Load) :
  let s := run events (initial sidebar) in
  App.loads s !! i = Some l -> inFlight l = true ->
  App.loads (step s e) !! i = Some Finished ->
  ~ watched (step s e) /\
  App.statusLed (step s e) <> Some ledBlue /\
  (forall j, j <> i -> App.loads (step s e) !! j = App.loads s !! j).
Proof.
  intros s Hi Hl Hend.
  pose proof (run_invariant events _ (initial_invariant sidebar)) as Hs.
  fold s in Hs.
  pose proof (step_invariant s e Hs) as [_ Hb' _ _ _ _].
  assert (Hstay : App.loads (step s e) !! i = App.loads s !! i -> False).
  { intros E. rewrite E, Hi in Hend. injection Hend as ->. discriminate. }
  assert (Hmain : ~ watched (step s e) /\
            (forall j, j <> i -> App.loads (step s e) !! j = App.loads s !! j)).
  { destruct Hs as [Ht _ _ _ _ _].
    destruct e as [leaflet|value|k fetch|k libs|handle leaflet|k];
      cbn [step] in *.
    - exfalso. apply Hstay. unfold initMap.
      destruct (initMapTry leaflet (App.display s));
        cbn [loadExcelData_call App.loads].
      rewrite Hi. apply lookup_app_l_Some. exact Hi.
    - exfalso. apply Hstay. cbn [loadExcelData_call App.loads].
      rewrite Hi. apply lookup_app_l_Some. exact Hi.
    - unfold loadExcelData_fetched in *.
      destruct (App.loads s !! k) as [[fileName|fileName response|]|] eqn:Ek;
        try (exfalso; now apply Hstay).
      destruct (snd (fetchFromMultiplePaths fetch fileName))
        as [[response path]|message]; cbn in *.
      + exfalso. destruct (decide (k = i)) as [->|Hne].
        * rewrite list_lookup_insert_eq in Hend by (now apply lookup_lt_Some in Hi).
          discriminate.
        * apply Hstay. now rewrite list_lookup_insert_ne.
      + destruct (decide (k = i)) as [->|Hne].
        * split.
          -- intros [h Hh]. cbn in Hh. now apply clearTimeout_unwatched in Hh.
          -- intros j Hj. now rewrite list_lookup_insert_ne.
        * exfalso. apply Hstay. now rewrite list_lookup_insert_ne.
    - unfold loadExcelData_buffered in *.
      destruct (App.loads s !! k) as [[fileName|fileName response|]|] eqn:Ek;
        try (exfalso; now apply Hstay).
      destruct (decide (k = i)) as [->|Hne].
      + destruct (Response.sheet response) as [rawJson|message];
          [destruct (renderUI libs (loadExcelData rawJson) (App.display s))|];
          cbn in *; (split;
            [ intros [h Hh]; cbn in Hh;
              repeat (apply clearTimeout_lookup in Hh as [Hh ?]);
              apply (timed_watchdog s Ht) in Hh; congruence
            | intros j Hj; now rewrite list_lookup_insert_ne ]).
      + exfalso. apply Hstay.
        destruct (Response.sheet response) as [rawJson|message];
          [destruct (renderUI libs (loadExcelData rawJson) (App.display s))|];
          cbn; now rewrite list_lookup_insert_ne.
    - exfalso. apply Hstay.
      destruct (App.timers s !! handle) as [[|]|]; reflexivity.
    - exfalso. apply Hstay.
      destruct (Display.listingGrid (App.display s)) as [cards|];
        [|reflexivity].
      destruct (cards !! k), (Display.map (App.display s)); reflexivity. }
  destruct Hmain as [Hw Hothers]. split; [exact Hw|]. split; [|exact Hothers].
  intros E. apply Hw, Hb', E.
Qed.

(** ** The page: one load from the call to its end *)

Lemma forEachListing_completes libs l : forall d,
  (forall p, In p l -> circleMarker libs p = None) ->
  exists d', forEachListing libs l d = Returns d'.
Proof.
  induction l as [|p l IH]; intros d Hl; cbn [forEachListing].
  - now exists d.
  - cbn [Display.markers Display.set_listingGrid].
    destruct (Display.markers d).
    + rewrite (Hl p) by now left. apply IH. intros q Hq. apply Hl. now right.
    + apply IH. intros q Hq. apply Hl. now right.
Qed.

Lemma renderListings_completes libs data d :
  clearLayers libs = None ->
  (forall p, In p data -> circleMarker libs p = None) ->
  exists d', renderListings libs data d = Returns d'.
Proof.
  intros H1 H2. unfold renderListings. rewrite H1.
  destruct (Display.markers (Display.set_listingGrid (Some []) d));
    cbn [andThen];
    match goal with |- context [forEachListing libs data ?x] =>
      destruct (forEachListing_completes libs data x H2) as [d3 ->]
    end; cbn [andThen]; eauto.
Qed.

Lemma renderChart_completes libs data d :
  chartDestroy libs = None -> newChart libs = None ->
  exists d', renderChart libs data d = Returns d'.
Proof.
  intros H1 H2. unfold renderChart. rewrite H1, H2.
  destruct (Display.chartInstance d); cbn [andThen]; eauto.
Qed.

Lemma renderUI_completes libs data d :
  clearLayers libs = None ->
  (forall p, In p data -> circleMarker libs p = None) ->
  chartDestroy libs = None -> newChart libs = None ->
  exists d', renderUI libs data d = Returns d'.
Proof.
  intros H1 H2 H3 H4. unfold renderUI.
  destruct (renderListings_completes libs data d H1 H2) as [d1 ->].
  cbn [andThen].
  destruct (renderChart_completes libs data d1 H3 H4) as [d2 ->].
  cbn [andThen].
  destruct (renderAnalysis_completes data (Display.sidebar d2)) as [page ->].
  cbn [andThen].
  destruct (Display.map _); [|eauto].
  destruct (Display.markers _) as [layers|]; [|eauto].
  destruct (0 <? length layers)%nat; [|eauto].
  destruct (fitBounds libs); eauto.
Qed.

Lemma loadExcelData_fetched_found i fetch s fileName response path :
  App.loads s !! i = Some (Fetching fileName) ->
  snd (fetchFromMultiplePaths fetch fileName) = inl (response, path) ->
  loadExcelData_fetched i fetch s =
  {| App.currentData := App.currentData s;
     App.loadTimeout := App.loadTimeout s;
     App.timers := App.timers s;
     App.nextHandle := App.nextHandle s;
     App.loads := <[ i := Buffering fileName response ]> (App.loads s);
     App.status := App.status s;
     App.statusLed := App.statusLed s;
     App.pathTrace := Some (str "Loaded: " ++ path);
     App.display := App.display s |}.
Proof.
  intros Hi Hf. unfold loadExcelData_fetched. now rewrite Hi, Hf.
Qed.

Lemma loadExcelData_buffered_loaded i libs s fileName response rawJson d :
  App.loads s !! i = Some (Buffering fileName response) ->
  Response.sheet response = inl rawJson ->
  renderUI libs (loadExcelData rawJson) (App.display s) = Returns d ->
  loadExcelData_buffered i libs s =
  {| App.currentData := loadExcelData rawJson;
     App.loadTimeout := App.loadTimeout s;
     App.timers := clearTimeout (App.loadTimeout s) (App.timers s);
     App.nextHandle := App.nextHandle s;
     App.loads := <[ i := Finished ]> (App.loads s);
     App.status :=
       Some (InnerText
         (fileName ++ str " LOADED " ++ [8212%N] ++ str " "
          ++ NumberToString (Array_length (loadExcelData rawJson))
          ++ str " properties"));
     App.statusLed := Some ledGreen;
     App.pathTrace := App.pathTrace s;
     App.display := d |}.
Proof.
  intros Hi Hs Hr. unfold loadExcelData_buffered. now rewrite Hi, Hs, Hr.
Qed.

(** The state when the window has loaded, a candidate path has answered
    with a workbook and rendering has returned. *)
Lemma boot_loaded sidebar leaflet fetch response path rawJson libs :
  snd (fetchFromMultiplePaths fetch (str "Feb012026")) = inl (response, path) ->
  Response.sheet response = inl rawJson ->
  clearLayers libs = None -> (forall p, circleMarker libs p = None) ->
  chartDestroy libs = None -> newChart libs = None ->
  let s1 := loadExcelData_call (str "Feb012026")
              (initMap leaflet (initial sidebar)) in
  exists d,
    renderUI libs (loadExcelData rawJson) (App.display s1) = Returns d /\
    run [WindowLoad leaflet; Fetched 0 fetch; Buffered 0 libs] (initial sidebar)
    = {| App.currentData := loadExcelData rawJson;
         App.loadTimeout := App.loadTimeout s1;
         App.timers := clearTimeout (App.loadTimeout s1) (App.timers s1);
         App.nextHandle := App.nextHandle s1;
         App.loads := [Finished];
         App.status :=
           Some (InnerText
             (str "Feb012026" ++ str " LOADED " ++ [8212%N] ++ str " "
              ++ NumberToString (Array_length (loadExcelData rawJson))
              ++ str " properties"));
         App.statusLed := Some ledGreen;
         App.pathTrace := Some (str "Loaded: " ++ path);
         App.display := d |}.
Proof.
  intros Hf Hs L1 L2 L3 L4 s1. unfold run. cbn [fold_left step]. fold s1.
  assert (H1 : App.loads s1 = [Fetching (str "Feb012026")]).
  { unfold s1, initMap. destruct leaflet; reflexivity. }
  rewrite (loadExcelData_fetched_found 0 fetch s1 (str "Feb012026") response path);
    [|now rewrite H1|exact Hf].
  destruct (renderUI_completes libs (loadExcelData rawJson) (App.display s1) L1
              (fun p _ => L2 p) L3 L4) as [d Hd].
  exists d. split; [exact Hd|].
  rewrite (loadExcelData_buffered_loaded 0 libs _ (str "Feb012026") response
             rawJson d); [|cbn [App.loads]; now rewrite H1|exact Hs|exact Hd].
  cbn [App.loadTimeout App.timers App.nextHandle App.loads App.pathTrace].
  now rewrite H1.
Qed.

(** X13: the map cannot stop the data load.  Whatever Leaflet does to
    [initMap], when the window has loaded, a candidate path has answered
    with a workbook and no call of rendering throws, the LED shows the
    success colour and the page shows the retained records of the sheet;
    there are markers, one per record, exactly when [initMap] got to its
    end. *)
Theorem map_failure_does_not_stop_load (sidebar : Sidebar) (leaflet : Leaflet)
    (fetch : Network) (response : Response.t) (path : list N)
    (rawJson : list RawRow) (libs : Libraries) :
  snd (fetchFromMultiplePaths fetch (str "Feb012026")) = inl (response, path) ->
  Response.sheet response = inl rawJson ->
  clearLayers libs = None -> (forall p, circleMarker libs p = None) ->
  chartDestroy libs = None -> newChart libs = None ->
  let s := run [WindowLoad leaflet; Fetched 0 fetch; Buffered 0 libs]
             (initial sidebar) in
  let data := loadExcelData rawJson in
  App.statusLed s = Some ledGreen /\
  App.currentData s = data /\
  App.pathTrace s = Some (str "Loaded: " ++ path) /\
  Display.listingGrid (App.display s) = Some (List.map card data) /\
  Display.chartInstance (App.display s) = Some (chartData data) /\
  Display.markers (App.display s) =
    match leaflet with
    | Works => Some (List.map marker data)
    | _ => None
    end.
Proof.
  intros Hf Hs L1 L2 L3 L4 s data.
  destruct (boot_loaded sidebar leaflet fetch response path rawJson libs
              Hf Hs L1 L2 L3 L4) as (d & Hd & E).
  subst s. rewrite E.
  cbn [App.statusLed App.currentData App.pathTrace App.display].
  apply renderUI_returns in Hd as (R1 & R2 & R3 & R4 & _).
  repeat split; try assumption.
  rewrite R3. unfold initMap. destruct leaflet; reflexivity.
Qed.

(** X14: a map that comes late has no markers.  When the first run of
    [initMap] fails, the data is loaded and rendered as above, and the retry
    then gets to its end, the LED shows the success colour and the grid holds
    a card per record, but the map, now live, has an empty marker layer: the
    markers of [currentData] are not drawn until the next load. *)
Theorem late_map_has_no_markers (sidebar : Sidebar) (leaflet : Leaflet)
    (fetch : Network) (response : Response.t) (path : list N)
    (rawJson : list RawRow) (libs : Libraries) :
  leaflet <> Works ->
  snd (fetchFromMultiplePaths fetch (str "Feb012026")) = inl (response, path) ->
  Response.sheet response = inl rawJson ->
  clearLayers libs = None -> (forall p, circleMarker libs p = None) ->
  chartDestroy libs = None -> newChart libs = None ->
  let s := run [WindowLoad leaflet; Fetched 0 fetch; Buffered 0 libs;
                TimerFires 1 Works] (initial sidebar) in
  let data := loadExcelData rawJson in
  App.statusLed s = Some ledGreen /\
  App.currentData s = data /\
  Display.listingGrid (App.display s) = Some (List.map card data) /\
  Display.map (App.display s) <> None /\
  Display.markers (App.display s) = Some [] /\
  App.timers s = ∅.
Proof.
  intros Hl Hf Hs L1 L2 L3 L4 s data.
  destruct (boot_loaded sidebar leaflet fetch response path rawJson libs
              Hf Hs L1 L2 L3 L4) as (d & Hd & E).
  subst s.
  change (run [WindowLoad leaflet; Fetched 0 fetch; Buffered 0 libs;
               TimerFires 1 Works] (initial sidebar))
    with (step (run [WindowLoad leaflet; Fetched 0 fetch; Buffered 0 libs]
                  (initial sidebar)) (TimerFires 1 Works)).
  rewrite E. clear E. cbn [step App.timers].
  apply renderUI_returns in Hd as (R1 & R2 & R3 & R4 & _).
  assert (Ht : forall s1, s1 = loadExcelData_call (str "Feb012026")
                                 (initMap leaflet (initial sidebar)) ->
             clearTimeout (App.loadTimeout s1) (App.timers s1) !! 1%positive
             = Some RetryMap /\
             delete 1%positive (clearTimeout (App.loadTimeout s1) (App.timers s1))
             = ∅).
  { intros s1 ->. destruct leaflet; try contradiction;
      split; vm_compute; reflexivity. }
  destruct (Ht _ eq_refl) as [-> ->].
  cbn. rewrite R1. repeat split; congruence.
Qed.

(** X15: a load that finds no file leaves the page as it was.  When no
    candidate path answers, the load ends in the [catch] block: the LED turns
    to the failure colour, the status line carries the message of
    [fetchFromMultiplePaths] with the file name as it was given, no watchdog
    is left armed, and [currentData], the grid, the chart, the sidebar and
    the map are what they were before. *)
Theorem failed_load_keeps_previous_page (sidebar : Sidebar)
    (events : list Event) (i : nat) (fetch : Network) (fileName : list N) :
  let s := run events (initial sidebar) in
  App.loads s !! i = Some (Fetching fileName) ->
  (forall p, In p (candidates fileName) -> ~ answers fetch p) ->
  let s' := step s (Fetched i fetch) in
  App.statusLed s' = Some ledRed /\
  App.status s' =
    Some (InnerHTML (redSpan (str "LOAD FAILED: " ++ notFound fileName))) /\
  App.currentData s' = App.currentData s /\
  App.display s' = App.display s /\
  App.loads s' !! i = Some Finished /\
  ~ watched s'.
Proof.
  intros s Hi Hno s'.
  pose proof (run_invariant events _ (initial_invariant sidebar)) as [Ht _ _ _ _ _].
  fold s in Ht. subst s'. cbn [step]. unfold loadExcelData_fetched.
  rewrite Hi, (fetchFromMultiplePaths_none fetch fileName Hno).
  cbn. repeat split.
  - apply list_lookup_insert_eq. now apply lookup_lt_Some in Hi.
  - intros [h Hh]. cbn in Hh. now apply clearTimeout_unwatched in Hh.
Qed.

Lemma failed_load_keeps_previous_page_witness :
  App.statusLed
    (step (run [WindowLoad Works] (initial blank))
       (Fetched 0 (serving [] [])))
  = Some ledRed.
Proof.
  refine (proj1 (failed_load_keeps_previous_page blank [WindowLoad Works] 0
                   (serving [] []) (str "Feb012026") _ _)).
  - reflexivity.
  - intros p _ (res & E & Hok). cbn in E. injection E as <-. discriminate.
Defined.

(** ** The page: instances *)

Lemma led_green_shows_currentData_witness :
  shows (run [WindowLoad Works; Fetched 0 sampleNetwork; Buffered 0 quiet]
           (initial blank)).
Proof.
  refine (proj1 (led_green_shows_currentData blank
    [WindowLoad Works; Fetched 0 sampleNetwork; Buffered 0 quiet] _)).
  vm_compute. reflexivity.
Defined.

Lemma finished_load_disarms_watchdog_witness :
  ~ watched
      (step (run [WindowLoad Works; Change (str "Jan012026");
                  Fetched 0 sampleNetwork] (initial blank))
         (Buffered 0 quiet)) /\
  App.loads
      (step (run [WindowLoad Works; Change (str "Jan012026");
                  Fetched 0 sampleNetwork] (initial blank))
         (Buffered 0 quiet)) !! 1%nat
  = Some (Fetching (str "Jan012026")).
Proof.
  destruct (finished_load_disarms_watchdog blank
    [WindowLoad Works; Change (str "Jan012026"); Fetched 0 sampleNetwork]
    (Buffered 0 quiet) 0
    (Buffering (str "Feb012026")
       {| Response.ok := true; Response.status := 200;
          Response.sheet := inl scenarioRows |}))
    as (Hw & _ & Ho).
  - vm_compute. reflexivity.
  - reflexivity.
  - vm_compute. reflexivity.
  - split; [exact Hw|]. rewrite Ho by lia. vm_compute. reflexivity.
Defined.

Lemma map_failure_does_not_stop_load_witness :
  App.statusLed
    (run [WindowLoad MapThrows; Fetched 0 sampleNetwork; Buffered 0 quiet]
       (initial blank))
  = Some ledGreen.
Proof.
  refine (proj1 (map_failure_does_not_stop_load blank MapThrows sampleNetwork
    {| Response.ok := true; Response.status := 200;
       Response.sheet := inl scenarioRows |}
    (str "data/Feb012026.xlsx") scenarioRows quiet _ _ _ _ _ _));
    reflexivity.
Defined.

Lemma late_map_has_no_markers_witness :
  Display.markers
    (App.display
       (run [WindowLoad MapThrows; Fetched 0 sampleNetwork; Buffered 0 quiet;
             TimerFires 1 Works] (initial blank)))
  = Some [] /\
  App.currentData
    (run [WindowLoad MapThrows; Fetched 0 sampleNetwork; Buffered 0 quiet;
          TimerFires 1 Works] (initial blank))
  <> [].
Proof.
  destruct (late_map_has_no_markers blank MapThrows sampleNetwork
    {| Response.ok := true; Response.status := 200;
       Response.sheet := inl scenarioRows |}
    (str "data/Feb012026.xlsx") scenarioRows quiet)
    as (_ & Hd & _ & _ & Hm & _); try reflexivity.
  - discriminate.
  - split; [exact Hm|]. rewrite Hd. vm_compute. discriminate.
Defined.

(** ** Rendering: the orchestrator *)

(** X16: [renderUI] throws only when a library call does, and a failing
    [fitBounds] is not one of them.  When clearing the layers, making the
    markers and replacing the chart do not throw, [renderUI] returns; the
    grid then holds one card per record in order and the count their number,
    the chart one bubble per record, the marker layer, if there is one, one
    marker per record; the map is fitted to the positions of the records
    exactly when there are a map, a marker layer and a record and
    [fitBounds] does not throw, and is left as it is otherwise.  With no
    record the sidebar is left as it is as well. *)
Theorem renderUI_throws_only_in_libraries (libs : Libraries)
    (data : list Property) (d : Display.t) :
  clearLayers libs = None ->
  (forall p, In p data -> circleMarker libs p = None) ->
  chartDestroy libs = None -> newChart libs = None ->
  exists d',
    renderUI libs data d = Returns d' /\
    Display.listingGrid d' = Some (List.map card data) /\
    Display.listingCount d' =
      Some (NumberToString (Array_length data) ++ str " Strategic Assets") /\
    Display.chartInstance d' = Some (chartData data) /\
    Display.markers d' =
      option_map (fun _ => List.map marker data) (Display.markers d) /\
    Display.map d' =
      match Display.map d, Display.markers d, data, fitBounds libs with
      | Some _, Some _, _ :: _, None =>
          Some (FitBounds (List.map (fun p => (lat p, lng p)) data)
                  (decimalToNumber false 15 (-2)))
      | _, _, _, _ => Display.map d
      end /\
    (data = [] -> Display.sidebar d' = Display.sidebar d).
Proof.
  intros H1 H2 H3 H4.
  destruct (renderUI_completes libs data d H1 H2 H3 H4) as [d' Hd].
  exists d'. split; [exact Hd|].
  apply renderUI_returns in Hd as (R1 & R2 & R3 & R4 & R5 & R6).
  rewrite List.map_map in R6. cbn [m_latlng marker] in R6.
  repeat split; try assumption.
  intros ->. cbn in R5. congruence.
Qed.

Lemma renderUI_throws_only_in_libraries_witness :
  exists d',
    renderUI quiet (loadExcelData scenarioRows)
      (App.display (initial blank)) = Returns d' /\
    Display.listingCount d' = Some (str "1 Strategic Assets").
Proof.
  destruct (renderUI_throws_only_in_libraries quiet
              (loadExcelData scenarioRows) (App.display (initial blank)))
    as (d' & Hd & _ & Hc & _); try reflexivity.
  exists d'. split; [exact Hd|]. rewrite Hc. vm_compute. reflexivity.
Defined.

(** ** The dependency checker *)

Lemma poll_settles start checks : forall first,
  (first <= 51)%nat -> (52 <= first + length checks)%nat ->
  onTime start first checks = true ->
  poll (start + 10000) checks <> Pending.
Proof.
  induction checks as [|[now g] rest IH]; intros first Hf Hl Ht; cbn in *.
  - lia.
  - apply andb_true_iff in Ht as [Hnow Ht]. apply Z.leb_le in Hnow.
    unfold check.
    destruct (length (missing g) =? 0)%nat; [discriminate|].
    destruct (start + 10000 <? now) eqn:El; [discriminate|].
    apply Z.ltb_ge in El. apply (IH (S first)); [lia|lia|exact Ht].
Qed.

(** X17: [waitForDeps] gives up in time.  When no timer fires early, the
    promise is settled by the 52nd run of [check] at the latest. *)
Theorem waitForDeps_settles_within_52_checks (start : Z)
    (checks : list (Z * Globals)) :
  (52 <= length checks)%nat -> onTime start 0 checks = true ->
  waitForDeps start checks <> Pending.
Proof.
  intros Hl Ht. unfold waitForDeps.
  apply (poll_settles start checks 0); [lia|lia|exact Ht].
Qed.

Lemma waitForDeps_settles_within_52_checks_witness :
  waitForDeps 0 (neverLoaded 52) <> Pending.
Proof.
  apply (waitForDeps_settles_within_52_checks 0 (neverLoaded 52)).
  - cbn. lia.
  - vm_compute. reflexivity.
Defined.

(** X18: how [waitForDeps] settles.  It resolves at the first run of [check]
    that finds the three globals, also after the deadline; it rejects only
    at a run later than 10 s after the start that still misses one, every
    run before having missed one too, and the message then names the
    missing libraries of that run. *)
Theorem waitForDeps_outcome (start : Z) (checks : list (Z * Globals)) :
  match waitForDeps start checks with
  | Resolved =>
      exists k now g,
        nth_error checks k = Some (now, g) /\ missing g = [] /\
        forall j t h, (j < k)%nat -> nth_error checks j = Some (t, h) ->
                      missing h <> [] /\ t <= start + 10000
  | Rejected message =>
      exists k now g,
        nth_error checks k = Some (now, g) /\
        start + 10000 < now /\ missing g <> [] /\
        message = str "Dependencies never loaded: "
                  ++ Array_join (str ", ") (missing g) /\
        forall j t h, (j < k)%nat -> nth_error checks j = Some (t, h) ->
                      missing h <> [] /\ t <= start + 10000
  | Pending =>
      forall k now g, nth_error checks k = Some (now, g) ->
                      missing g <> [] /\ now <= start + 10000
  end.
Proof.
  unfold waitForDeps.
  induction checks as [|[now g] rest IH]; cbn [poll].
  - intros [|k] now g H; discriminate.
  - unfold check.
    destruct (length (missing g) =? 0)%nat eqn:Em.
    + apply Nat.eqb_eq, length_zero_iff_nil in Em.
      exists 0%nat, now, g. repeat split; try assumption; lia.
    + assert (Hm : missing g <> []).
      { intros E. rewrite E in Em. discriminate. }
      destruct (start + 10000 <? now) eqn:El.
      * apply Z.ltb_lt in El. exists 0%nat, now, g.
        repeat split; try assumption; try reflexivity; lia.
      * apply Z.ltb_ge in El.
        assert (Hshift : forall k,
          (forall j t h, (j < k)%nat -> nth_error rest j = Some (t, h) ->
                         missing h <> [] /\ t <= start + 10000) ->
          forall j t h, (j < S k)%nat ->
            nth_error ((now, g) :: rest) j = Some (t, h) ->
            missing h <> [] /\ t <= start + 10000).
        { intros k Hb [|j] t h Hj Hn; cbn in Hn.
          - injection Hn as <- <-. now split.
          - apply (Hb j); [lia|exact Hn]. }
        destruct (poll (start + 10000) rest) as [| |message].
        -- intros [|k] t h Hn; cbn in Hn.
           ++ injection Hn as <- <-. now split.
           ++ now apply (IH k).
        -- destruct IH as (k & t & h & Hk & Hh & Hbefore).
           exists (S k), t, h. split; [exact Hk|]. split; [exact Hh|].
           now apply Hshift.
        -- destruct IH as (k & t & h & Hk & Ht & Hh & Hmsg & Hbefore).
           exists (S k), t, h. split; [exact Hk|]. split; [exact Ht|].
           split; [exact Hh|]. split; [exact Hmsg|]. now apply Hshift.
Qed.

(** ** The page: the load that finishes last *)




(** ** The empty collection on the page *)

(** C5: the guard of [renderAnalysis] returns before anything is written, so
    the sidebar is not emptied.  When a load ends with no retained record and
    no rendering call throws, the load succeeds (the LED shows the success
    colour, nothing is thrown and no quotient is formed) and [renderUI]
    shows the empty collection in the grid, the count and the chart; but the
    statistics, the narrative and the top picks of the sidebar are what they
    were, those of the load before. *)
Theorem empty_load_keeps_previous_sidebar (sidebar : Sidebar)
    (events : list Event) (i : nat) (libs : Libraries) (fileName : list N)
    (response : Response.t) (rawJson : list RawRow) :
  let s := run events (initial sidebar) in
  App.loads s !! i = Some (Buffering fileName response) ->
  Response.sheet response = inl rawJson ->
  loadExcelData rawJson = [] ->
  clearLayers libs = None -> chartDestroy libs = None -> newChart libs = None ->
  let s' := step s (Buffered i libs) in
  App.currentData s' = [] /\
  App.statusLed s' = Some ledGreen /\
  Display.listingGrid (App.display s') = Some [] /\
  Display.listingCount (App.display s') = Some (str "0 Strategic Assets") /\
  Display.chartInstance (App.display s') = Some [] /\
  Display.sidebar (App.display s') = Display.sidebar (App.display s).
Proof.
  intros s Hi Hs Hempty L1 L3 L4 s'.
  destruct (renderUI_completes libs (loadExcelData rawJson) (App.display s) L1)
    as [d Hd]; [now rewrite Hempty|exact L3|exact L4|].
  assert (E : s' = _) by exact (loadExcelData_buffered_loaded i libs s fileName
                                  response rawJson d Hi Hs Hd).
  apply renderUI_returns in Hd as (R1 & R2 & _ & R4 & R5 & _).
  rewrite Hempty in R1, R2, R4, R5. cbn in R1, R4, R5.
  injection R5 as R5.
  rewrite E. cbn [App.currentData App.statusLed App.display].
  rewrite R1, R2, R4, <- R5, Hempty. repeat split.
Qed.

Lemma empty_load_keeps_previous_sidebar_witness :
  App.currentData
    (step (run [WindowLoad Works; Fetched 0 sampleNetwork; Buffered 0 quiet;
                Change (str "Empty"); Fetched 1 (serving [str "Empty.xlsx"] [])]
             (initial blank))
       (Buffered 1 quiet)) = [] /\
  List.map (fun c => (address (fst c), snd c))
    (el_topPicks
       (Display.sidebar
          (App.display
             (step (run [WindowLoad Works; Fetched 0 sampleNetwork;
                         Buffered 0 quiet; Change (str "Empty");
                         Fetched 1 (serving [str "Empty.xlsx"] [])]
                      (initial blank))
                (Buffered 1 quiet)))))
  = [(str "A", true)].
Proof.
  destruct (empty_load_keeps_previous_sidebar blank
    [WindowLoad Works; Fetched 0 sampleNetwork; Buffered 0 quiet;
     Change (str "Empty"); Fetched 1 (serving [str "Empty.xlsx"] [])]
    1 quiet (str "Empty")
    {| Response.ok := true; Response.status := 200; Response.sheet := inl [] |}
    []) as (Hd & _ & _ & _ & _ & Hsb);
    [vm_compute; reflexivity|reflexivity..|].
  split; [exact Hd|]. rewrite Hsb. vm_compute. reflexivity.
Defined.
